(** * mycase.js: the token lifecycle of the MyCase lead relay

    A shallow embedding of [src/mycase.js] (token helpers, the background
    refresher and its timer, and the [/auth], [/callback], [/lead] and
    [/token-status] handlers), followed by the properties the specification
    states about them and by further properties read off the code.

    Modelling conventions.
    - JavaScript values are the inductive [value]; numbers are mathematical
      integers plus [NaN] (epoch milliseconds and lifetimes in seconds are
      integers far below 2^53, where double arithmetic is exact).
    - [Date.now()], the token file and the HTTP client are the fields of
      [world]; every function of the source that touches one of them is a
      computation in the monad [M] (state passing plus exceptions).  An
      [await] is sequential composition: one task is followed on its own.
    - [console.log] / [console.error] have no effect on anything the
      specification observes and are left out; a write to the token file
      succeeds whenever it is handed text. *)

From Stdlib Require Import ZArith NArith String Ascii DecimalString List Bool Lia.
Import ListNotations.

Local Open Scope string_scope.
Local Open Scope Z_scope.

(* ===================================================================== *)
(** ** JavaScript values *)
(* ===================================================================== *)

#[local] Set Warnings "-register-all".

Inductive number : Type :=
| NaN
| Int (z : Z).

(** An array carries its elements and, apart from them, the named
    properties that were assigned on it ([a.expires_at = ...] is legal on an
    array and invisible to [JSON.stringify]). *)
Inductive value : Type :=
| VUndefined
| VNull
| VBool (b : bool)
| VNum (n : number)
| VStr (s : string)
| VObj (fields : list (string * value))
| VArr (items : list value) (props : list (string * value)).

Definition num (z : Z) : value := VNum (Int z).

(** ToBoolean. *)
Definition truthy (v : value) : bool :=
  match v with
  | VUndefined | VNull => false
  | VBool b => b
  | VNum NaN => false
  | VNum (Int z) => negb (z =? 0)%Z
  | VStr s => negb (s =? "")%string
  | VObj _ | VArr _ _ => true
  end.

(** [a || b] where [b] has no effect. *)
Definition js_or (a b : value) : value := if truthy a then a else b.

(** Own-property lookup in a property list. *)
Fixpoint lookup (k : string) (fs : list (string * value)) : value :=
  match fs with
  | [] => VUndefined
  | (k', v) :: rest => if (k =? k')%string then v else lookup k rest
  end.

(** [v.k] for a [v] that is neither [null] nor [undefined].  None of the
    property names this program reads is inherited from a prototype, so a
    read on a primitive yields [undefined]. *)
Definition get (k : string) (v : value) : value :=
  match v with
  | VObj fs => lookup k fs
  | VArr _ ps => lookup k ps
  | _ => VUndefined
  end.

(** Assignment of an own property: an existing key keeps its position, a
    new key is appended. *)
Fixpoint update (k : string) (x : value) (fs : list (string * value))
  : list (string * value) :=
  match fs with
  | [] => [(k, x)]
  | (k', v) :: rest =>
      if (k =? k')%string then (k', x) :: rest else (k', v) :: update k x rest
  end.

(** [v.k = x] for a [v] that is neither [null] nor [undefined]; in sloppy
    mode (the file has no "use strict") the assignment is silently dropped
    on a primitive. *)
Definition set (k : string) (x : value) (v : value) : value :=
  match v with
  | VObj fs => VObj (update k x fs)
  | VArr items ps => VArr items (update k x ps)
  | _ => v
  end.

Definition nullish (v : value) : bool :=
  match v with
  | VUndefined | VNull => true
  | _ => false
  end.

(** What the engine does outside the integer fragment: ToNumber on strings
    and on objects, and the text of the TypeError raised by a property
    access on [null] or [undefined]. *)
Record engine : Type := {
  string_to_number : string -> number;
  object_to_number : value -> number;
  nullish_access_text : string;
  invalid_data_text : string
}.

(** What [process.env] supplies. *)
Record config : Type := {
  CLIENT_ID : value;
  CLIENT_SECRET : value;
  REDIRECT_URI : value
}.

Definition num_add (a b : number) : number :=
  match a, b with
  | Int x, Int y => Int (x + y)
  | _, _ => NaN
  end.

Definition num_sub (a b : number) : number :=
  match a, b with
  | Int x, Int y => Int (x - y)
  | _, _ => NaN
  end.

Definition num_mul (a b : number) : number :=
  match a, b with
  | Int x, Int y => Int (x * y)
  | _, _ => NaN
  end.

(** [a < b] and [a >= b] on numbers: false as soon as one side is NaN. *)
Definition num_ltb (a b : number) : bool :=
  match a, b with
  | Int x, Int y => x <? y
  | _, _ => false
  end.

Definition num_geb (a b : number) : bool :=
  match a, b with
  | Int x, Int y => y <=? x
  | _, _ => false
  end.

(** The value read back by [JSON.parse] from the text [JSON.stringify]
    wrote: NaN becomes [null], a property holding [undefined] is dropped,
    an [undefined] array element becomes [null], the named properties of an
    array are dropped. *)
Fixpoint json (v : value) : value :=
  match v with
  | VUndefined => VNull
  | VNum NaN => VNull
  | VObj fs =>
      VObj ((fix fields (l : list (string * value)) :=
               match l with
               | [] => []
               | (k, VUndefined) :: rest => fields rest
               | (k, x) :: rest => (k, json x) :: fields rest
               end) fs)
  | VArr items _ => VArr (map json items) []
  | _ => v
  end.

(** [JSON.stringify(v)] is [undefined] exactly when [v] is. *)
Definition JSON_stringify (v : value) : option value :=
  match v with
  | VUndefined => None
  | _ => Some (json v)
  end.

(* ===================================================================== *)
(** ** The world: clock, token file, HTTP client *)
(* ===================================================================== *)

(** What the remote end answers to one POST. *)
Inductive reply : Type :=
| NetworkError (message : string)
| Status (code : Z) (data : value).

(** One call of [axios.post]: the URL, the body object as passed, and the
    value interpolated into the [Authorization: Bearer ...] header, if the
    call sets that header. *)
Record request : Type := {
  url : string;
  body : value;
  bearer : option value
}.

(** The token file: not there, there but unreadable or not JSON, or holding
    the text of a JSON value. *)
Inductive file : Type :=
| Missing
| Unreadable
| Stored (content : value).

(** [clock k] is what the [k]-th call of [Date.now()] returns (milliseconds
    since the epoch, a natural number); [replies k] is the answer to the
    [k]-th POST; [sent] logs the POSTs made so far. *)
Record world : Type := {
  clock : nat -> N;
  reads : nat;
  disk : file;
  replies : nat -> reply;
  sent : list request
}.

Inductive exn : Type :=
| Error (message : string)
| TypeError (message : string)
| AxiosError (r : reply).

Definition M (A : Type) : Type := world -> (exn + A) * world.

Definition ret {A} (a : A) : M A := fun w => (inr a, w).

Definition throw {A} (e : exn) : M A := fun w => (inl e, w).

Definition bind {A B} (m : M A) (f : A -> M B) : M B :=
  fun w =>
    match m w with
    | (inr a, w') => f a w'
    | (inl e, w') => (inl e, w')
    end.

(** [try { m } catch (err) { handler(err) }] *)
Definition try_catch {A} (m : M A) (handler : exn -> M A) : M A :=
  fun w =>
    match m w with
    | (inr a, w') => (inr a, w')
    | (inl e, w') => handler e w'
    end.

Declare Scope js_scope.
Delimit Scope js_scope with js.
Notation "x <- m ;; k" := (bind m (fun x => k))
  (at level 100, m at next level, right associativity) : js_scope.
Notation "m ;; k" := (bind m (fun _ => k))
  (at level 100, right associativity) : js_scope.
Local Open Scope js_scope.

Definition now_of (w : world) : Z := Z.of_N (clock w (reads w)).

(** The world after one more reading of the clock. *)
Definition ticked (w : world) : world :=
  {| clock := clock w; reads := S (reads w); disk := disk w;
     replies := replies w; sent := sent w |}.

Definition Date_now : M Z := fun w => (inr (now_of w), ticked w).

Definition write_file (content : value) : M unit :=
  fun w =>
    (inr tt,
     {| clock := clock w; reads := reads w; disk := Stored content;
        replies := replies w; sent := sent w |}).

Definition next_reply (w : world) : reply := replies w (length (sent w)).

Definition ok_status (code : Z) : bool := (200 <=? code) && (code <? 300).

(** [await axios.post(...)]: resolves with [res.data] on a 2xx status and
    rejects otherwise (axios' default [validateStatus]). *)
Definition logged (rq : request) (w : world) : world :=
  {| clock := clock w; reads := reads w; disk := disk w;
     replies := replies w; sent := sent w ++ [rq] |}.

Definition axios_post (rq : request) : M value :=
  fun w =>
    match next_reply w with
    | Status code data =>
        if ok_status code then (inr data, logged rq w)
        else (inl (AxiosError (Status code data)), logged rq w)
    | NetworkError m => (inl (AxiosError (NetworkError m)), logged rq w)
    end.

(* ===================================================================== *)
(** ** The program *)
(* ===================================================================== *)

Definition TOKEN_URL : string := "https://auth.mycase.com/tokens".
Definition LEADS_URL : string :=
  "https://external-integrations.mycase.com/v1/leads".

(** The two errors [getValidAccessToken] raises itself; the specification
    calls them Unauthorized and MissingRefreshToken. *)
Definition Unauthorized : exn :=
  Error "No tokens found. Visit /auth to authorize the app first.".
Definition MissingRefreshToken : exn :=
  Error "No refresh token available — re-authorize via /auth.".

(** An HTTP answer of this server: [res.status(s).json(v)]; the client
    reads back the JSON image of [v]. *)
Record response : Type := {
  status : Z;
  payload : value
}.

Definition res_json (s : Z) (v : value) : response :=
  {| status := s; payload := json v |}.

Section Program.

Context (E : engine) (C : config).

(** ToNumber. *)
Definition to_number (v : value) : number :=
  match v with
  | VUndefined => NaN
  | VNull => Int 0
  | VBool b => Int (if b then 1 else 0)
  | VNum n => n
  | VStr s => string_to_number E s
  | VObj _ | VArr _ _ => object_to_number E v
  end.

(** [Date.now() + x * 1000] *)
Definition expiry_from (now : Z) (x : value) : value :=
  VNum (num_add (Int now) (num_mul (to_number x) (Int 1000))).

(** lines 19-29.  Every failure of the read or of [JSON.parse] is caught
    and answered with [null]. *)
Definition loadTokens : M value :=
  fun w =>
    match disk w with
    | Stored v => (inr v, w)
    | Missing | Unreadable => (inr VNull, w)
    end.

(** lines 31-38.  The function returns nothing; what is returned here is
    the argument object as the caller sees it afterwards, since line 35
    assigns into it.  [fs.writeFileSync] rejects [undefined] data. *)
Definition saveTokens (tokens : value) : M value :=
  tokens' <- (if truthy tokens && truthy (get "expires_in" tokens)
              then now <- Date_now ;;
                   ret (set "expires_at"
                            (expiry_from now (get "expires_in" tokens)) tokens)
              else ret tokens) ;;
  match JSON_stringify tokens' with
  | Some text => write_file text ;; ret tokens'
  | None => throw (TypeError (invalid_data_text E))
  end.

(** What one call of [saveTokens] at clock reading [now] leaves in its
    argument (lines 34-36). *)
Definition saved (now : Z) (tokens : value) : value :=
  if truthy tokens && truthy (get "expires_in" tokens)
  then set "expires_at" (expiry_from now (get "expires_in" tokens)) tokens
  else tokens.

(** Lines 53-55 and 71-74: [tokens = res.data], stamp [expires_at], save,
    return.  On [null] or [undefined] data the property access throws. *)
Definition stamp_and_save (data : value) : M value :=
  now <- Date_now ;;
  if nullish data then throw (TypeError (nullish_access_text E))
  else
    saveTokens
      (set "expires_at"
           (expiry_from now (js_or (get "expires_in" data) (num 0))) data).

(** lines 41-56 *)
Definition exchangeCodeForTokens (code : value) : M value :=
  data <- axios_post
            {| url := TOKEN_URL;
               body := VObj [("client_id", CLIENT_ID C);
                             ("client_secret", CLIENT_SECRET C);
                             ("code", code);
                             ("grant_type", VStr "authorization_code");
                             ("redirect_uri", REDIRECT_URI C)];
               bearer := None |} ;;
  stamp_and_save data.

Definition refresh_request (refreshToken : value) : request :=
  {| url := TOKEN_URL;
     body := VObj [("client_id", CLIENT_ID C);
                   ("client_secret", CLIENT_SECRET C);
                   ("grant_type", VStr "refresh_token");
                   ("refresh_token", refreshToken)];
     bearer := None |}.

(** lines 59-79: the handler logs and rethrows. *)
Definition refreshAccessToken (refreshToken : value) : M value :=
  try_catch
    (data <- axios_post (refresh_request refreshToken) ;;
     stamp_and_save data)
    (fun err => throw err).

(** Line 88: [!tokens.expires_at || now >= tokens.expires_at - 2*60*1000]. *)
Definition near_or_past_expiry (now : Z) (tokens : value) : bool :=
  negb (truthy (get "expires_at" tokens))
  || num_geb (Int now)
             (num_sub (to_number (get "expires_at" tokens))
                      (Int (2 * 60 * 1000))).

(** lines 82-93 *)
Definition getValidAccessToken : M value :=
  tokens <- loadTokens ;;
  if negb (truthy tokens) then throw Unauthorized
  else
    now <- Date_now ;;
    if near_or_past_expiry now tokens then
      if negb (truthy (get "refresh_token" tokens))
      then throw MissingRefreshToken
      else
        tokens' <- refreshAccessToken (get "refresh_token" tokens) ;;
        ret (get "access_token" tokens')
    else ret (get "access_token" tokens).

(** lines 96-112: one firing of the 10-minute timer. *)
Definition backgroundRefresher : M unit :=
  try_catch
    (tokens <- loadTokens ;;
     if negb (truthy tokens) || negb (truthy (get "expires_at" tokens))
     then ret tt
     else
       now <- Date_now ;;
       let msLeft := num_sub (to_number (get "expires_at" tokens)) (Int now) in
       if num_ltb msLeft (Int (12 * 60 * 60 * 1000))
       then refreshAccessToken (get "refresh_token" tokens) ;; ret tt
       else ret tt)
    (fun _ => ret tt).

(** Lines 172-195: the body submitted downstream. *)
Definition lead_payload (b : value) : value :=
  let payload :=
    VObj [("first_name", get "firstName" b);
          ("last_name", get "lastName" b);
          ("email", js_or (get "email" b) VNull);
          ("cell_phone_number", js_or (get "phone" b) VNull);
          ("address",
           VObj [("address1", js_or (get "address1" b) (VStr ""));
                 ("address2", js_or (get "address2" b) (VStr ""));
                 ("city", js_or (get "city" b) (VStr ""));
                 ("state", js_or (get "state" b) (VStr ""));
                 ("zip_code", js_or (get "zip" b) (VStr ""));
                 ("country", js_or (get "country" b) (VStr "US"))]);
          ("lead_details", js_or (get "summary" b) (VStr ""))] in
  if truthy (get "typeOfClient" b) && truthy (get "customFieldId" b)
  then set "custom_field_values"
           (VArr [VObj [("custom_field",
                         VObj [("id", get "customFieldId" b)]);
                        ("value", get "typeOfClient" b)]] [])
           payload
  else payload.

(** Line 204: [err.response ? err.response.data : { message: err.message }] *)
Definition errData (err : exn) : value :=
  match err with
  | AxiosError (Status _ data) => data
  | AxiosError (NetworkError m) => VObj [("message", VStr m)]
  | Error m => VObj [("message", VStr m)]
  | TypeError m => VObj [("message", VStr m)]
  end.

(** lines 163-208: [POST /lead] with [req.body = b]. *)
Definition post_lead (b : value) : M response :=
  if negb (truthy b) || negb (truthy (get "firstName" b))
     || negb (truthy (get "lastName" b))
  then ret (res_json 400
              (VObj [("error", VStr "firstName and lastName are required")]))
  else
    try_catch
      (accessToken <- getValidAccessToken ;;
       data <- axios_post {| url := LEADS_URL; body := lead_payload b;
                             bearer := Some accessToken |} ;;
       ret (res_json 200 (VObj [("success", VBool true); ("data", data)])))
      (fun err =>
         ret (res_json 500 (VObj [("error", VStr "Failed to create lead");
                                  ("details", errData err)]))).

(** lines 211-220: [GET /token-status]. *)
Definition token_status : M response :=
  tokens <- loadTokens ;;
  if negb (truthy tokens)
  then ret (res_json 200 (VObj [("authorized", VBool false)]))
  else
    now <- Date_now ;;
    ret (res_json 200
           (VObj [("authorized", VBool true);
                  ("expires_at", get "expires_at" tokens);
                  ("ms_until_expiry",
                   VNum (num_sub (to_number (get "expires_at" tokens))
                                 (Int now)));
                  ("has_refresh_token",
                   VBool (truthy (get "refresh_token" tokens)))])).

End Program.

(** The record the program sees in the store: what [loadTokens] returns,
    provided it passes the test [!tokens] of lines 84, 99 and 213. *)
Definition stored_record (w : world) : option value :=
  match loadTokens w with
  | (inr v, _) => if truthy v then Some v else None
  | (inl _, _) => None
  end.

(** [k in v], for own properties. *)
Definition has_key (k : string) (v : value) : bool :=
  match v with
  | VObj fs | VArr _ fs => existsb (fun p => (fst p =? k)%string) fs
  | _ => false
  end.

(** The token endpoint turns the next request down: no answer at all, or a
    status outside 2xx. *)
Definition rejected (r : reply) : bool :=
  match r with
  | NetworkError _ => true
  | Status code _ => negb (ok_status code)
  end.

(** The [expires_at] of what the token file holds. *)
Definition stored_expires_at (w : world) : value :=
  match disk w with
  | Stored v => get "expires_at" v
  | Missing | Unreadable => VUndefined
  end.

(** The specification's wording of "near or past expiry" at time [now]:
    [expires_at] is absent, or [now >= expires_at - 120000]. *)
Definition spec_near_or_past_expiry (now : Z) (r : value) : Prop :=
  nullish (get "expires_at" r) = true
  \/ exists e, get "expires_at" r = num e /\ now >= e - 120000.

(** The world [w] with the token file removed: the unauthorized state. *)
Definition without_record (w : world) : world :=
  {| clock := clock w; reads := reads w; disk := Missing;
     replies := replies w; sent := sent w |}.

(** The [authorized] field of what [GET /token-status] answers in [w]. *)
Definition authorized_answer (E : engine) (w : world) : value :=
  match fst (token_status E w) with
  | inr resp => get "authorized" (payload resp)
  | inl _ => VUndefined
  end.

(** The specification's wording of "treated the same as the unauthorized
    state": what [/token-status] answers and what [getValidAccessToken]
    yields are what they would be with no record stored. *)
Definition spec_treated_as_unauthorized (E : engine) (C : config) (w : world)
  : Prop :=
  fst (token_status E w) = fst (token_status E (without_record w))
  /\ fst (getValidAccessToken E C w)
     = fst (getValidAccessToken E C (without_record w)).

(* ===================================================================== *)
(** ** Concrete runs: an engine, a configuration, some worlds *)
(* ===================================================================== *)

(** None of the runs below converts a string or an object to a number, so
    both conversions are left at NaN here. *)
Definition run_engine : engine :=
  {| string_to_number := fun _ => NaN;
     object_to_number := fun _ => NaN;
     nullish_access_text := "Cannot read properties of null";
     invalid_data_text := "The data argument must be of type string" |}.

Definition run_config : config :=
  {| CLIENT_ID := VStr "client-1";
     CLIENT_SECRET := VStr "s3cret";
     REDIRECT_URI := VStr "https://relay.example/callback" |}.

(** A world whose clock starts at [t] and advances [step] milliseconds per
    reading, with file [f], and an endpoint that always answers [r]. *)
Definition world_at (t step : N) (f : file) (r : reply) : world :=
  {| clock := fun k => (t + step * N.of_nat k)%N; reads := 0; disk := f;
     replies := fun _ => r; sent := [] |}.

Definition hour : Z := 60 * 60 * 1000.

Definition token_record (expires_at : Z) : value :=
  VObj [("access_token", VStr "at-1");
        ("refresh_token", VStr "rt-1");
        ("expires_in", num 86400);
        ("expires_at", num expires_at)].

Definition record_without_refresh_token (expires_at : Z) : value :=
  VObj [("access_token", VStr "at-1"); ("expires_at", num expires_at)].

Definition record_without_access_token (expires_at : Z) : value :=
  VObj [("refresh_token", VStr "rt-1"); ("expires_at", num expires_at)].

Definition granted_record : value :=
  VObj [("access_token", VStr "at-2");
        ("refresh_token", VStr "rt-2");
        ("expires_in", num 86400)].

Definition granted_without_lifetime : list (string * value) :=
  [("access_token", VStr "at-2"); ("refresh_token", VStr "rt-2")].

Definition refused : reply :=
  Status 400 (VObj [("error", VStr "invalid_grant")]).

Definition created : reply := Status 201 (VObj [("id", num 7)]).

Definition john_doe : value :=
  VObj [("firstName", VStr "John"); ("lastName", VStr "Doe");
        ("email", VStr "j@x.com")].

Definition john_doe_typed : value :=
  VObj [("firstName", VStr "John"); ("lastName", VStr "Doe");
        ("email", VStr "j@x.com"); ("typeOfClient", VStr "Real Estate")].

(* ===================================================================== *)
(** ** The remaining routes: [GET /auth] and [GET /callback] *)
(* ===================================================================== *)

(** ToString.  A string is the sequence of the UTF-8 bytes of well-formed
    text; an integer prints in decimal (as JavaScript prints every integer
    below 10^21 in absolute value). *)
Fixpoint to_string (v : value) : string :=
  match v with
  | VUndefined => "undefined"
  | VNull => "null"
  | VBool true => "true"
  | VBool false => "false"
  | VNum NaN => "NaN"
  | VNum (Int z) => NilZero.string_of_int (Z.to_int z)
  | VStr s => s
  | VObj _ => "[object Object]"
  | VArr items _ =>
      (fix join (l : list value) : string :=
         match l with
         | [] => ""
         | x :: rest =>
             (if nullish x then "" else to_string x)
             ++ match rest with
                | [] => ""
                | _ :: _ => "," ++ join rest
                end
         end) items
  end.

(** The characters [encodeURIComponent] leaves alone:
    A-Z a-z 0-9 - _ . ! ~ * ' ( ) *)
Definition unreserved (c : ascii) : bool :=
  let n := N_of_ascii c in
  ((65 <=? n) && (n <=? 90) || (97 <=? n) && (n <=? 122)
   || (48 <=? n) && (n <=? 57))%N
  || existsb (Ascii.eqb c) (list_ascii_of_string "-_.!~*'()").

Definition hex_digit (n : N) : ascii :=
  match n with
  | 0 => "0" | 1 => "1" | 2 => "2" | 3 => "3" | 4 => "4" | 5 => "5"
  | 6 => "6" | 7 => "7" | 8 => "8" | 9 => "9" | 10 => "A" | 11 => "B"
  | 12 => "C" | 13 => "D" | 14 => "E" | _ => "F"
  end%N%char.

(** [%XX] for one byte. *)
Definition percent (c : ascii) : string :=
  String "%" (String (hex_digit (N_of_ascii c / 16))
                (String (hex_digit (N_of_ascii c mod 16)) "")).

(** [encodeURIComponent] on the UTF-8 bytes of a string. *)
Fixpoint encodeURIComponent (s : string) : string :=
  match s with
  | EmptyString => ""
  | String c rest =>
      (if unreserved c then String c "" else percent c)
      ++ encodeURIComponent rest
  end.

(** What a handler sends when it does not answer JSON:
    [res.status(code).send(text)] or [res.redirect(location)]. *)
Inductive answer : Type :=
| Text (code : Z) (text : string)
| Redirect (code : Z) (location : string).


Section Routes.

Context (E : engine) (C : config).

(** lines 119-126: [GET /auth] with [req.query = query].  The location is
    the string handed to [res.redirect]; Express sends it as it is when it
    holds none but URL characters, which is the case here (shown
    further down). *)
Definition get_auth (query : value) : answer :=
  let state := js_or (get "state" query) (VStr "") in
  Redirect 302
    ("https://auth.mycase.com/login_sessions/new?client_id="
     ++ encodeURIComponent (to_string (CLIENT_ID C))
     ++ "&redirect_uri="
     ++ encodeURIComponent (to_string (REDIRECT_URI C))
     ++ "&response_type=code&state="
     ++ encodeURIComponent (to_string state)).


(** line 115: the first [n] firings of the ten-minute timer, each one
    finished before the next starts. *)
Fixpoint interval_firings (n : nat) : M unit :=
  match n with
  | O => ret tt
  | S k => backgroundRefresher E C ;; interval_firings k
  end.

End Routes.

(** Number of occurrences of a character in a string. *)
Fixpoint count_char (c : ascii) (s : string) : nat :=
  match s with
  | EmptyString => 0
  | String c' rest => (if Ascii.eqb c c' then 1 else 0) + count_char c rest
  end.

Definition hex_value (c : ascii) : N :=
  let n := N_of_ascii c in
  (if n <? 58 then n - 48 else n - 55)%N.

(** The inverse of [encodeURIComponent] on its own output; the source has
    no decoder, this one serves to show that the encoding loses nothing. *)
Fixpoint percent_decode (s : string) : string :=
  match s with
  | String "%" (String a (String b rest)) =>
      String (ascii_of_N (16 * hex_value a + hex_value b)) (percent_decode rest)
  | String c rest => String c (percent_decode rest)
  | EmptyString => ""
  end.



(** The request the code exchange sends for [code]. *)
Definition exchange_request (C : config) (code : value) : request :=
  {| url := TOKEN_URL;
     body := VObj [("client_id", CLIENT_ID C);
                   ("client_secret", CLIENT_SECRET C);
                   ("code", code);
                   ("grant_type", VStr "authorization_code");
                   ("redirect_uri", REDIRECT_URI C)];
     bearer := None |}.

(** The request [POST /lead] sends downstream for body [b] with token
    [tok]. *)
Definition lead_request (b tok : value) : request :=
  {| url := LEADS_URL; body := lead_payload b; bearer := Some tok |}.

(** What [POST /lead] answers when line 202 catches [err]. *)
Definition lead_failure (err : exn) : response :=
  res_json 500 (VObj [("error", VStr "Failed to create lead");
                      ("details", errData err)]).



Definition granted_without_refresh_token : list (string * value) :=
  [("access_token", VStr "at-2"); ("expires_in", num 3600)].

Definition expiring_world (r : reply) : world :=
  world_at 500000 1 (Stored (token_record 500000)) r.

Definition unauthorized_world (r : reply) : world :=
  world_at 1000 1 Missing r.

Definition healthy_world (r : reply) : world :=
  world_at 1000 1 (Stored (token_record 500000)) r.

Definition lead_without_last_name : value :=
  VObj [("firstName", VStr "John"); ("email", VStr "j@x.com")].


Ltac run_monad :=
  unfold bind, ret, throw, try_catch, Date_now, write_file, axios_post;
  cbn [fst snd disk sent reads clock replies].

(** Lines 83-86 on a world whose file holds a truthy value. *)
Ltac past_line_86 Hdisk Htruthy :=
  unfold getValidAccessToken, loadTokens, bind, Date_now;
  rewrite Hdisk; cbn iota; rewrite Htruthy; cbn [negb].

(* ===================================================================== *)
(** ** Property lists, JSON images *)
(* ===================================================================== *)

Lemma lookup_update_same k x fs : lookup k (update k x fs) = x.
Proof.
  induction fs as [|[k' v] fs IH]; simpl.
  - now rewrite String.eqb_refl.
  - destruct (String.eqb_spec k k') as [->|Hne]; simpl.
    + now rewrite String.eqb_refl.
    + apply String.eqb_neq in Hne. now rewrite Hne.
Qed.

Lemma lookup_update_other k k' x fs :
  k <> k' -> lookup k (update k' x fs) = lookup k fs.
Proof.
  intros Hne. induction fs as [|[k0 v] fs IH]; simpl.
  - apply String.eqb_neq in Hne. now rewrite Hne.
  - destruct (String.eqb_spec k' k0) as [->|Hne0]; simpl.
    + apply String.eqb_neq in Hne. now rewrite Hne.
    + now rewrite IH.
Qed.

(** Assigning a property does not disturb the others, whatever the target. *)
Lemma get_set_other k k' x v : k <> k' -> get k (set k' x v) = get k v.
Proof.
  intros Hne. destruct v; simpl; auto using lookup_update_other.
Qed.

Lemma get_set_same_obj k x fs : get k (set k x (VObj fs)) = x.
Proof. simpl. apply lookup_update_same. Qed.

Lemma get_defined_truthy k v : get k v <> VUndefined -> truthy v = true.
Proof.
  destruct v; simpl; intros H; try reflexivity; now elim H.
Qed.

Lemma truthy_get_truthy k v : truthy (get k v) = true -> truthy v = true.
Proof.
  intros H. apply (get_defined_truthy k). intros Hu. now rewrite Hu in H.
Qed.

Lemma truthy_not_nullish v : truthy v = true -> nullish v = false.
Proof. destruct v; simpl; congruence. Qed.

Lemma set_truthy k x v : truthy (set k x v) = truthy v.
Proof. now destruct v. Qed.

Lemma set_nullish k x v : nullish (set k x v) = nullish v.
Proof. now destruct v. Qed.

(** A property that holds a value survives the trip through the file. *)
Lemma get_json_obj k fs :
  get k (VObj fs) <> VUndefined ->
  get k (json (VObj fs)) = json (get k (VObj fs)).
Proof.
  simpl. induction fs as [|[k' v] fs IH]; simpl; intros Hdef.
  - now elim Hdef.
  - destruct (String.eqb_spec k k') as [->|Hne].
    + destruct v; simpl; rewrite ?String.eqb_refl; try reflexivity.
      now elim Hdef.
    + apply String.eqb_neq in Hne.
      destruct v; simpl; rewrite ?Hne; auto.
Qed.

Lemma get_json_set_obj k x fs :
  x <> VUndefined -> get k (json (set k x (VObj fs))) = json x.
Proof.
  intros Hx. change (set k x (VObj fs)) with (VObj (update k x fs)).
  rewrite get_json_obj; simpl; rewrite lookup_update_same; auto.
Qed.

(* ===================================================================== *)
(** ** Running the monad *)
(* ===================================================================== *)

Lemma stored_record_disk w r :
  stored_record w = Some r -> disk w = Stored r /\ truthy r = true.
Proof.
  unfold stored_record, loadTokens.
  destruct (disk w) as [| |v]; simpl; try discriminate.
  destruct (truthy v) eqn:Hv; intros [= ->]; auto.
Qed.

Lemma stored_record_none w :
  stored_record w = None ->
  exists v, loadTokens w = (inr v, w) /\ truthy v = false.
Proof.
  unfold stored_record, loadTokens.
  destruct (disk w) as [| |v]; simpl; eauto.
  destruct (truthy v) eqn:Hv; [discriminate | eauto].
Qed.

Lemma now_of_nonneg w : 0 <= now_of w.
Proof. unfold now_of. apply N2Z.is_nonneg. Qed.

Lemma axios_post_resolved rq w code data :
  next_reply w = Status code data -> ok_status code = true ->
  axios_post rq w = (inr data, logged rq w).
Proof. intros Hr Hok. unfold axios_post. now rewrite Hr, Hok. Qed.

Lemma axios_post_rejected rq w :
  rejected (next_reply w) = true ->
  axios_post rq w = (inl (AxiosError (next_reply w)), logged rq w).
Proof.
  unfold axios_post, rejected.
  destruct (next_reply w) as [m|code data]; [reflexivity|].
  destruct (ok_status code); [discriminate | reflexivity].
Qed.

Section Properties.

Context (E : engine) (C : config).

Lemma JSON_stringify_defined v :
  v <> VUndefined -> JSON_stringify v = Some (json v).
Proof. destruct v; intros H; try reflexivity. now elim H. Qed.

Lemma set_defined k x v : v <> VUndefined -> set k x v <> VUndefined.
Proof. destruct v; simpl; congruence. Qed.

Lemma nullish_defined v : nullish v = false -> v <> VUndefined.
Proof. intros H ->. discriminate. Qed.

(** Lines 31-38 on anything but [undefined]: the call returns, the file
    holds the JSON text of the argument as the call leaves it, no request
    is sent, and only [expires_at] may have changed in the argument. *)
Lemma saveTokens_ok tokens w :
  tokens <> VUndefined ->
  exists tokens' w',
    saveTokens E tokens w = (inr tokens', w')
    /\ disk w' = Stored (json tokens')
    /\ sent w' = sent w
    /\ (forall k, k <> "expires_at" -> get k tokens' = get k tokens).
Proof.
  intros Hdef. unfold saveTokens. run_monad.
  destruct (truthy tokens && truthy (get "expires_in" tokens)); cbn [fst snd].
  - rewrite JSON_stringify_defined by now apply set_defined.
    do 2 eexists. split; [reflexivity|]. cbn. repeat split.
    intros k Hk. now apply get_set_other.
  - rewrite JSON_stringify_defined by assumption.
    do 2 eexists. split; [reflexivity|]. cbn. auto.
Qed.

(** Lines 71-74 on data that is neither [null] nor [undefined]: the call
    succeeds, the file holds the JSON text of the object returned, and
    only [expires_at] differs from the data received. *)
Lemma stamp_and_save_ok data w :
  nullish data = false ->
  exists tokens w',
    stamp_and_save E data w = (inr tokens, w')
    /\ disk w' = Stored (json tokens)
    /\ sent w' = sent w
    /\ (forall k, k <> "expires_at" -> get k tokens = get k data).
Proof.
  intros Hnn. unfold stamp_and_save. run_monad. rewrite Hnn.
  match goal with |- context [saveTokens E ?t ?w0] =>
    destruct (saveTokens_ok t w0) as (tokens & w' & Hrun & Hdisk & Hsent & Hget)
  end.
  { apply set_defined. now apply nullish_defined. }
  exists tokens, w'. repeat split; auto.
  intros k Hk. rewrite (Hget k Hk). now apply get_set_other.
Qed.

Lemma expiry_from_zero now : expiry_from E now (num 0) = num now.
Proof.
  unfold expiry_from, num. cbn [to_number num_mul num_add].
  now rewrite Z.mul_0_l, Z.add_0_r.
Qed.

(** The same lines on an object without a usable [expires_in]: the stamp
    is the reading of the clock at line 71, and line 35 leaves it alone. *)
Lemma stamp_and_save_no_lifetime fs w :
  truthy (get "expires_in" (VObj fs)) = false ->
  exists w',
    stamp_and_save E (VObj fs) w
    = (inr (set "expires_at" (num (now_of w)) (VObj fs)), w')
    /\ disk w' = Stored (json (set "expires_at" (num (now_of w)) (VObj fs)))
    /\ sent w' = sent w.
Proof.
  intros Hin. unfold stamp_and_save, saveTokens. run_monad. cbn [nullish].
  unfold js_or. rewrite Hin, expiry_from_zero.
  rewrite get_set_other by discriminate. rewrite Hin, andb_false_r.
  cbn [fst snd set JSON_stringify].
  eexists. split; [reflexivity|]. cbn. auto.
Qed.

Lemma refreshAccessToken_resolved rt w code data :
  next_reply w = Status code data -> ok_status code = true ->
  refreshAccessToken E C rt w
  = stamp_and_save E data (logged (refresh_request C rt) w).
Proof.
  intros Hr Hok. unfold refreshAccessToken, try_catch, bind.
  rewrite (axios_post_resolved _ _ _ _ Hr Hok).
  now destruct (stamp_and_save E data _) as [[err|tokens] w'].
Qed.

Lemma refreshAccessToken_rejected rt w :
  rejected (next_reply w) = true ->
  refreshAccessToken E C rt w
  = (inl (AxiosError (next_reply w)), logged (refresh_request C rt) w).
Proof.
  intros Hrej. unfold refreshAccessToken, try_catch, bind.
  now rewrite (axios_post_rejected _ _ Hrej).
Qed.

(** The test of line 88 on a record whose [expires_at] is the integer [e]. *)
Lemma near_or_past_expiry_int now r e :
  get "expires_at" r = num e ->
  near_or_past_expiry E now r = (e =? 0) || (e - 120000 <=? now).
Proof.
  intros He. unfold near_or_past_expiry. rewrite He. simpl.
  now rewrite negb_involutive.
Qed.

Lemma near_or_past_expiry_falsy now r :
  truthy (get "expires_at" r) = false -> near_or_past_expiry E now r = true.
Proof. intros H. unfold near_or_past_expiry. now rewrite H. Qed.

(** Lines 83-92 on a record more than two minutes from expiry: the only
    effect is the reading of the clock. *)
Lemma getValidAccessToken_far_from_expiry w r e :
  stored_record w = Some r ->
  get "expires_at" r = num e ->
  now_of w + 120000 < e ->
  getValidAccessToken E C w = (inr (get "access_token" r), ticked w).
Proof.
  intros Hrec He Hfar.
  destruct (stored_record_disk _ _ Hrec) as [Hdisk Htr].
  pose proof (now_of_nonneg w) as Hnow.
  past_line_86 Hdisk Htr.
  rewrite (near_or_past_expiry_int _ _ _ He).
  replace (e =? 0) with false by (symmetry; apply Z.eqb_neq; lia).
  replace (e - 120000 <=? now_of w) with false
    by (symmetry; apply Z.leb_gt; lia).
  reflexivity.
Qed.

(** C1.  A stored record whose [expires_at] lies more than 120000 ms after
    the current time: [getValidAccessToken] returns the stored
    [access_token] as it is, sends no request, and leaves the token file as
    it was. *)
Theorem getValidAccessToken_fresh_token w r e :
  stored_record w = Some r ->
  get "expires_at" r = num e ->
  now_of w + 120000 < e ->
  exists w',
    getValidAccessToken E C w = (inr (get "access_token" r), w')
    /\ sent w' = sent w
    /\ disk w' = disk w.
Proof.
  intros Hrec He Hfar. exists (ticked w).
  split; [now apply (getValidAccessToken_far_from_expiry w r e) | now split].
Qed.

Lemma spec_near_or_past_expiry_sound now r :
  spec_near_or_past_expiry now r -> near_or_past_expiry E now r = true.
Proof.
  intros [Hnull | (e & He & Hle)].
  - apply near_or_past_expiry_falsy.
    destruct (get "expires_at" r); simpl in *; congruence.
  - rewrite (near_or_past_expiry_int _ _ _ He).
    apply orb_true_iff. right. apply Z.leb_le. lia.
Qed.

(** Whatever the endpoint answers, one call of [refreshAccessToken] sends
    exactly one request: the refresh request for the token it was given. *)
Lemma refreshAccessToken_sends_one rt w :
  sent (snd (refreshAccessToken E C rt w))
  = (sent w ++ [refresh_request C rt])%list.
Proof.
  destruct (rejected (next_reply w)) eqn:Hrej.
  - now rewrite refreshAccessToken_rejected.
  - unfold rejected in Hrej.
    destruct (next_reply w) as [m|code data] eqn:Hreply; [discriminate|].
    apply negb_false_iff in Hrej.
    rewrite (refreshAccessToken_resolved _ _ _ _ Hreply Hrej).
    destruct (nullish data) eqn:Hnull.
    + unfold stamp_and_save, bind, Date_now. now rewrite Hnull.
    + destruct (stamp_and_save_ok data (logged (refresh_request C rt) w) Hnull)
        as (tokens & w' & -> & _ & Hsent & _).
      exact Hsent.
Qed.

(** C2.  A stored record that is near or past expiry (or has no
    [expires_at]) and holds a refresh token (line 89: a truthy
    [refresh_token]): [getValidAccessToken] sends exactly one request, the
    refresh request carrying that refresh token, whatever the endpoint
    answers; and when the endpoint answers 2xx with a record, the token
    file then holds the record received (with its [expires_at] stamped)
    and the result is the [access_token] of the record received. *)
Theorem getValidAccessToken_refreshes w r :
  stored_record w = Some r ->
  spec_near_or_past_expiry (now_of w) r ->
  truthy (get "refresh_token" r) = true ->
  (exists res w',
      getValidAccessToken E C w = (res, w')
      /\ sent w' = (sent w ++ [refresh_request C (get "refresh_token" r)])%list)
  /\ (forall code data,
        next_reply w = Status code data -> ok_status code = true ->
        nullish data = false ->
        exists tokens w',
          getValidAccessToken E C w = (inr (get "access_token" data), w')
          /\ disk w' = Stored (json tokens)
          /\ (forall k, k <> "expires_at" -> get k tokens = get k data)).
Proof.
  intros Hrec Hnear Hrt.
  apply stored_record_disk in Hrec as [Hdisk Htr].
  apply spec_near_or_past_expiry_sound in Hnear.
  assert (Hstep : getValidAccessToken E C w
                  = let (res, w') := refreshAccessToken E C
                                       (get "refresh_token" r) (ticked w) in
                    match res with
                    | inl err => (inl err, w')
                    | inr tokens => (inr (get "access_token" tokens), w')
                    end).
  { past_line_86 Hdisk Htr. now rewrite Hnear, Hrt. }
  rewrite Hstep. clear Hstep. split.
  - pose proof (refreshAccessToken_sends_one (get "refresh_token" r)
                  (ticked w)) as Hsent.
    destruct (refreshAccessToken E C _ (ticked w)) as [[err|tokens] w'];
      do 2 eexists; split; try reflexivity; exact Hsent.
  - intros code data Hreply Hok Hdata.
    rewrite (refreshAccessToken_resolved _ (ticked w) code data Hreply Hok).
    destruct (stamp_and_save_ok data
                (logged (refresh_request C (get "refresh_token" r)) (ticked w))
                Hdata)
      as (tokens & w' & -> & Hd & _ & Hk).
    exists tokens, w'. rewrite (Hk "access_token") by discriminate.
    repeat split; auto.
Qed.

(** C3.  When the token endpoint turns the refresh request down (network
    error or a status outside 2xx), [refreshAccessToken] fails with the
    error axios raised, which carries the cause; the token file is as it
    was; and a [getValidAccessToken] that went to refresh fails with that
    same error, the file again untouched. *)
Theorem refresh_failure_propagates_store_intact w :
  rejected (next_reply w) = true ->
  (forall rt, exists w',
      refreshAccessToken E C rt w = (inl (AxiosError (next_reply w)), w')
      /\ disk w' = disk w)
  /\ (forall r,
        stored_record w = Some r ->
        spec_near_or_past_expiry (now_of w) r ->
        truthy (get "refresh_token" r) = true ->
        exists w',
          getValidAccessToken E C w = (inl (AxiosError (next_reply w)), w')
          /\ disk w' = disk w).
Proof.
  intros Hrej. split.
  - intros rt. rewrite refreshAccessToken_rejected by assumption.
    now eexists.
  - intros r Hrec Hnear Hrt.
    destruct (stored_record_disk _ _ Hrec) as [Hdisk Htr].
    pose proof (spec_near_or_past_expiry_sound _ _ Hnear) as Hline88.
    past_line_86 Hdisk Htr. rewrite Hline88, Hrt. cbn [negb].
    rewrite (refreshAccessToken_rejected _ (ticked w)) by exact Hrej.
    eexists. split; [reflexivity | cbn; congruence].
Qed.

(** C4.  [getValidAccessToken] fails with Unauthorized when the store holds
    no record, and with MissingRefreshToken when it holds a record that is
    near or past expiry (or has no [expires_at]) and no refresh token; in
    both cases no request is sent and the token file is as it was. *)
Theorem getValidAccessToken_failures w :
  (stored_record w = None ->
   getValidAccessToken E C w = (inl Unauthorized, w))
  /\ (forall r,
        stored_record w = Some r ->
        spec_near_or_past_expiry (now_of w) r ->
        truthy (get "refresh_token" r) = false ->
        exists w',
          getValidAccessToken E C w = (inl MissingRefreshToken, w')
          /\ sent w' = sent w
          /\ disk w' = disk w).
Proof.
  split.
  - intros Hnone. apply stored_record_none in Hnone as (v & Hload & Hv).
    unfold getValidAccessToken, bind. now rewrite Hload, Hv.
  - intros r Hrec Hnear Hrt.
    apply stored_record_disk in Hrec as [Hdisk Htr].
    apply spec_near_or_past_expiry_sound in Hnear.
    past_line_86 Hdisk Htr. rewrite Hnear, Hrt. cbn [negb].
    exists (ticked w). cbn. now rewrite Hdisk.
Qed.

(** The [catch] of line 109 swallows everything: a firing of the timer
    always returns. *)
Lemma backgroundRefresher_returns w :
  exists w', backgroundRefresher E C w = (inr tt, w').
Proof.
  unfold backgroundRefresher, try_catch.
  destruct (bind loadTokens _ w) as [[err|[]] w']; unfold ret; eauto.
Qed.

(** Lines 98-102 on a record whose [expires_at] is the non-zero integer
    [e]: the firing refreshes or not according to [e - now < 12 h]. *)
Lemma backgroundRefresher_int w r e :
  stored_record w = Some r -> get "expires_at" r = num e -> e <> 0 ->
  backgroundRefresher E C w
  = if e - now_of w <? 12 * 60 * 60 * 1000
    then (inr tt,
          snd (refreshAccessToken E C (get "refresh_token" r) (ticked w)))
    else (inr tt, ticked w).
Proof.
  intros Hrec He Hnz. apply stored_record_disk in Hrec as [Hdisk Htr].
  unfold backgroundRefresher, try_catch, bind, loadTokens, Date_now.
  rewrite Hdisk, Htr, He.
  cbn [negb orb truthy num to_number num_sub num_ltb].
  apply Z.eqb_neq in Hnz. rewrite Hnz. cbn [negb].
  destruct (e - now_of w <? 12 * 60 * 60 * 1000); [|reflexivity].
  now destruct (refreshAccessToken E C _ (ticked w)) as [[err|tokens] w'].
Qed.

(** C7.  One firing of the background refresher does nothing when the
    store holds no record or the record has no [expires_at] (line 99: a
    falsy [expires_at]); when the record has one, it sends exactly one
    refresh request if the remaining lifetime is strictly below 12 hours,
    and sends nothing and leaves the file alone otherwise. *)
Theorem backgroundRefresher_threshold w :
  (stored_record w = None -> backgroundRefresher E C w = (inr tt, w))
  /\ (forall r,
        stored_record w = Some r ->
        truthy (get "expires_at" r) = false ->
        backgroundRefresher E C w = (inr tt, w))
  /\ (forall r e,
        stored_record w = Some r ->
        get "expires_at" r = num e -> truthy (num e) = true ->
        (e - now_of w < 12 * 60 * 60 * 1000 ->
         exists w',
           backgroundRefresher E C w = (inr tt, w')
           /\ sent w'
              = (sent w ++ [refresh_request C (get "refresh_token" r)])%list)
        /\ (12 * 60 * 60 * 1000 <= e - now_of w ->
            exists w',
              backgroundRefresher E C w = (inr tt, w')
              /\ sent w' = sent w
              /\ disk w' = disk w)).
Proof.
  split; [|split].
  - intros Hnone. apply stored_record_none in Hnone as (v & Hload & Hv).
    unfold backgroundRefresher, try_catch, bind. now rewrite Hload, Hv.
  - intros r Hrec Hfalsy. apply stored_record_disk in Hrec as [Hdisk Htr].
    unfold backgroundRefresher, try_catch, bind, loadTokens.
    now rewrite Hdisk, Htr, Hfalsy.
  - intros r e Hrec He Hpresent.
    assert (Hnz : e <> 0).
    { intros ->. discriminate Hpresent. }
    rewrite (backgroundRefresher_int w r e Hrec He Hnz). split; intros Hleft.
    + apply Z.ltb_lt in Hleft. rewrite Hleft. eexists. split; [reflexivity|].
      apply (refreshAccessToken_sends_one _ (ticked w)).
    + apply Z.ltb_ge in Hleft. rewrite Hleft. now exists (ticked w).
Qed.

(** C9.  A stored record with an [expires_at] less than 12 hours ahead and
    no [refresh_token]: the firing does not skip the refresh.  It sends the
    refresh request with [refresh_token: undefined] and returns normally;
    and when the endpoint turns that request down, the token file is as it
    was. *)
Theorem backgroundRefresher_without_refresh_token w r e :
  stored_record w = Some r ->
  get "expires_at" r = num e -> truthy (num e) = true ->
  e - now_of w < 12 * 60 * 60 * 1000 ->
  get "refresh_token" r = VUndefined ->
  exists w',
    backgroundRefresher E C w = (inr tt, w')
    /\ sent w' = (sent w ++ [refresh_request C VUndefined])%list
    /\ (rejected (next_reply w) = true -> disk w' = disk w).
Proof.
  intros Hrec He Hpresent Hleft Hnone.
  assert (Hnz : e <> 0) by (intros ->; discriminate Hpresent).
  rewrite (backgroundRefresher_int w r e Hrec He Hnz), Hnone.
  rewrite (proj2 (Z.ltb_lt _ _) Hleft).
  eexists. split; [reflexivity|]. split.
  - apply (refreshAccessToken_sends_one _ (ticked w)).
  - intros Hrej.
    now rewrite (refreshAccessToken_rejected VUndefined (ticked w) Hrej).
Qed.

Lemma set_set k x y v : set k x (set k y v) = set k x v.
Proof.
  assert (Hup : forall fs, update k x (update k y fs) = update k x fs).
  { induction fs as [|[k' v'] fs IH]; simpl.
    - now rewrite String.eqb_refl.
    - destruct (String.eqb_spec k k') as [->|Hne]; simpl.
      + now rewrite String.eqb_refl.
      + apply String.eqb_neq in Hne. now rewrite Hne, IH. }
  destruct v; try reflexivity; unfold set; now rewrite Hup.
Qed.

Lemma saveTokens_run tokens w :
  tokens <> VUndefined ->
  exists w',
    saveTokens E tokens w = (inr (saved E (now_of w) tokens), w')
    /\ disk w' = Stored (json (saved E (now_of w) tokens))
    /\ (truthy tokens && truthy (get "expires_in" tokens) = false -> 
        now_of w' = now_of w).
Proof.
  intros Hdef. unfold saveTokens, saved, bind, Date_now, ret.
  destruct (truthy tokens && truthy (get "expires_in" tokens)).
  - rewrite JSON_stringify_defined by now apply set_defined.
    eexists. split; [reflexivity|]. cbn. split; [reflexivity|discriminate].
  - rewrite JSON_stringify_defined by assumption.
    eexists. split; [reflexivity|]. cbn. auto.
Qed.

Lemma saved_idempotent now tokens :
  saved E now (saved E now tokens) = saved E now tokens.
Proof.
  unfold saved.
  destruct (truthy tokens && truthy (get "expires_in" tokens)) eqn:Hc.
  - rewrite set_truthy, get_set_other, Hc by discriminate. apply set_set.
  - now rewrite Hc.
Qed.

Lemma saved_defined now tokens :
  tokens <> VUndefined -> saved E now tokens <> VUndefined.
Proof.
  intros Hdef. unfold saved.
  destruct (truthy tokens && _); auto using set_defined.
Qed.

(** C8.  [saveTokens] is idempotent on the stored [expires_at]: when a
    second call reads the same value of [Date.now()] as the first, it
    leaves the same token file, hence the same stored [expires_at],
    whether it is handed the object the first call has already assigned
    into or the input as it was before. *)
Theorem saveTokens_idempotent tokens w :
  tokens <> VUndefined ->
  exists t1 w1,
    saveTokens E tokens w = (inr t1, w1)
    /\ (now_of w1 = now_of w ->
        (exists t2 w2,
            saveTokens E t1 w1 = (inr t2, w2)
            /\ disk w2 = disk w1
            /\ stored_expires_at w2 = stored_expires_at w1)
        /\ (exists t2 w2,
               saveTokens E tokens w1 = (inr t2, w2)
               /\ disk w2 = disk w1
               /\ stored_expires_at w2 = stored_expires_at w1)).
Proof.
  intros Hdef.
  destruct (saveTokens_run tokens w Hdef) as (w1 & Hrun1 & Hdisk1 & _).
  exists (saved E (now_of w) tokens), w1. split; [exact Hrun1|].
  intros Hsame. split.
  - destruct (saveTokens_run (saved E (now_of w) tokens) w1
                (saved_defined _ _ Hdef)) as (w2 & Hrun2 & Hdisk2 & _).
    rewrite Hsame, saved_idempotent in Hrun2, Hdisk2.
    exists (saved E (now_of w) tokens), w2.
    unfold stored_expires_at. rewrite Hdisk1, Hdisk2. auto.
  - destruct (saveTokens_run tokens w1 Hdef) as (w2 & Hrun2 & Hdisk2 & _).
    rewrite Hsame in Hrun2, Hdisk2.
    exists (saved E (now_of w) tokens), w2.
    unfold stored_expires_at. rewrite Hdisk1, Hdisk2. auto.
Qed.

Lemma exchangeCodeForTokens_resolved code w st data :
  next_reply w = Status st data -> ok_status st = true ->
  exists rq,
    exchangeCodeForTokens E C code w = stamp_and_save E data (logged rq w).
Proof.
  intros Hr Hok. unfold exchangeCodeForTokens, bind. eexists.
  now rewrite (axios_post_resolved _ _ _ _ Hr Hok).
Qed.

(** A stored object stamped with the reading [t] is due for refresh at
    every later reading: the next [getValidAccessToken] never answers from
    the file. *)
Lemma stamped_now_is_due fs t w2 :
  0 <= t ->
  disk w2 = Stored (json (set "expires_at" (num t) (VObj fs))) ->
  t <= now_of w2 ->
  let rec := json (set "expires_at" (num t) (VObj fs)) in
  get "expires_at" rec = num t
  /\ near_or_past_expiry E (now_of w2) rec = true
  /\ exists res w3,
       getValidAccessToken E C w2 = (res, w3)
       /\ (res = inl MissingRefreshToken
           \/ sent w3
              = (sent w2 ++ [refresh_request C (get "refresh_token" rec)])%list).
Proof.
  intros Ht Hdisk Hlater rec.
  assert (Hat : get "expires_at" rec = num t).
  { subst rec. now rewrite get_json_set_obj. }
  assert (Hdue : near_or_past_expiry E (now_of w2) rec = true).
  { rewrite (near_or_past_expiry_int _ _ _ Hat).
    apply orb_true_iff. right. apply Z.leb_le. lia. }
  repeat split; auto.
  fold rec in Hdisk. past_line_86 Hdisk (eq_refl : truthy rec = true).
  rewrite Hdue.
  destruct (truthy (get "refresh_token" rec)); cbn [negb].
  - pose proof (refreshAccessToken_sends_one (get "refresh_token" rec)
                  (ticked w2)) as Hsent.
    destruct (refreshAccessToken E C _ (ticked w2)) as [[err|tokens] w3];
      do 2 eexists; (split; [reflexivity | right; exact Hsent]).
  - do 2 eexists. split; [reflexivity | now left].
Qed.

(** C10.  A 2xx answer to the code exchange or to a refresh whose record
    has no [expires_in]: the stored record's [expires_at] is the reading of
    the clock taken when the answer is processed (now + 0), not absent;
    hence any later [getValidAccessToken] finds the token near or past
    expiry and does not answer from the file: it goes to refresh, or fails
    for want of a refresh token. *)
Theorem missing_expires_in_expires_at_once w st fs :
  next_reply w = Status st (VObj fs) -> ok_status st = true ->
  get "expires_in" (VObj fs) = VUndefined ->
  forall run,
    (exists code, run = exchangeCodeForTokens E C code)
    \/ (exists rt, run = refreshAccessToken E C rt) ->
    exists tokens w' rec,
      run w = (inr tokens, w')
      /\ disk w' = Stored rec
      /\ get "expires_at" rec = num (now_of w)
      /\ forall w2,
           disk w2 = disk w' -> now_of w <= now_of w2 ->
           near_or_past_expiry E (now_of w2) rec = true
           /\ exists res w3,
                getValidAccessToken E C w2 = (res, w3)
                /\ (res = inl MissingRefreshToken
                    \/ sent w3
                       = (sent w2
                            ++ [refresh_request C (get "refresh_token" rec)])%list).
Proof.
  intros Hreply Hok Hnone run Hrun.
  assert (Hfalsy : truthy (get "expires_in" (VObj fs)) = false)
    by now rewrite Hnone.
  assert (Hstep : exists rq,
             run w = stamp_and_save E (VObj fs) (logged rq w)).
  { destruct Hrun as [[code ->] | [rt ->]].
    - now apply (exchangeCodeForTokens_resolved code w st).
    - eexists. now apply (refreshAccessToken_resolved rt w st). }
  destruct Hstep as (rq & ->).
  destruct (stamp_and_save_no_lifetime fs (logged rq w) Hfalsy)
    as (w' & Hrun' & Hdisk' & _).
  change (now_of (logged rq w)) with (now_of w) in Hrun', Hdisk'.
  do 3 eexists. split; [exact Hrun'|]. split; [exact Hdisk'|].
  pose proof (now_of_nonneg w) as Hpos.
  split.
  - now rewrite get_json_set_obj.
  - intros w2 Hsame Hlater. rewrite Hdisk' in Hsame.
    destruct (stamped_now_is_due fs (now_of w) w2 Hpos Hsame Hlater)
      as (_ & Hdue & Hnext).
    split; assumption.
Qed.

(** C6.  A lead with [firstName] and [lastName], once a token has been
    obtained: the handler sends exactly one request downstream, whose body
    maps firstName / lastName / email / phone to first_name / last_name /
    email / cell_phone_number with [null] for a missing email or phone,
    holds an address whose fields default to the empty string and whose
    country defaults to "US", [lead_details] defaulting to the empty
    string, and has a [custom_field_values] key exactly when both
    [typeOfClient] and [customFieldId] are supplied; in particular not when
    [customFieldId] is missing. *)
Theorem post_lead_submission_body b w tok w1 :
  truthy (get "firstName" b) = true ->
  truthy (get "lastName" b) = true ->
  getValidAccessToken E C w = (inr tok, w1) ->
  exists resp w2 p,
    post_lead E C b w = (inr resp, w2)
    /\ sent w2
       = (sent w1 ++ [{| url := LEADS_URL; body := p; bearer := Some tok |}])%list
    /\ get "first_name" p = get "firstName" b
    /\ get "last_name" p = get "lastName" b
    /\ get "email" p = js_or (get "email" b) VNull
    /\ get "cell_phone_number" p = js_or (get "phone" b) VNull
    /\ get "address" p
       = VObj [("address1", js_or (get "address1" b) (VStr ""));
               ("address2", js_or (get "address2" b) (VStr ""));
               ("city", js_or (get "city" b) (VStr ""));
               ("state", js_or (get "state" b) (VStr ""));
               ("zip_code", js_or (get "zip" b) (VStr ""));
               ("country", js_or (get "country" b) (VStr "US"))]
    /\ get "lead_details" p = js_or (get "summary" b) (VStr "")
    /\ has_key "custom_field_values" p
       = truthy (get "typeOfClient" b) && truthy (get "customFieldId" b)
    /\ (get "customFieldId" b = VUndefined ->
        has_key "custom_field_values" p = false).
Proof.
  intros Hfirst Hlast Htoken.
  pose proof (truthy_get_truthy _ _ Hfirst) as Hbody.
  assert (Hsend : exists resp w2,
             post_lead E C b w = (inr resp, w2)
             /\ sent w2
                = (sent w1 ++ [{| url := LEADS_URL; body := lead_payload b;
                                  bearer := Some tok |}])%list).
  { unfold post_lead. rewrite Hbody, Hfirst, Hlast. cbn [negb orb].
    unfold try_catch, bind. rewrite Htoken. unfold axios_post.
    destruct (next_reply w1) as [m|code data];
      [|destruct (ok_status code)]; unfold ret; eauto. }
  destruct Hsend as (resp & w2 & Hrun & Hsent).
  exists resp, w2, (lead_payload b). split; [exact Hrun|].
  split; [exact Hsent|].
  unfold lead_payload.
  destruct (truthy (get "typeOfClient" b)) eqn:Htype;
    destruct (truthy (get "customFieldId" b)) eqn:Hid;
    cbn -[js_or]; repeat split; try reflexivity;
    intros Hmissing; rewrite Hmissing in Hid; discriminate Hid.
Qed.

(** The answer of [GET /token-status] in world [w]. *)
Lemma token_status_authorized w :
  exists resp w',
    token_status E w = (inr resp, w')
    /\ get "authorized" (payload resp)
       = VBool (match stored_record w with Some _ => true | None => false end).
Proof.
  unfold token_status, stored_record, loadTokens, bind, Date_now, ret.
  destruct (disk w) as [| |v]; cbn iota; cbn [truthy negb];
    try (do 2 eexists; split; reflexivity).
  destruct (truthy v); cbn [negb]; do 2 eexists; split; reflexivity.
Qed.

(** The errors of [refreshAccessToken] are those of axios and of the
    engine, never the "No tokens found" of line 84. *)
Lemma refreshAccessToken_not_Unauthorized rt w :
  fst (refreshAccessToken E C rt w) <> inl Unauthorized.
Proof.
  destruct (rejected (next_reply w)) eqn:Hrej.
  - rewrite refreshAccessToken_rejected by assumption. discriminate.
  - unfold rejected in Hrej.
    destruct (next_reply w) as [m|code data] eqn:Hreply; [discriminate|].
    apply negb_false_iff in Hrej.
    rewrite (refreshAccessToken_resolved _ _ _ _ Hreply Hrej).
    destruct (nullish data) eqn:Hnull.
    + unfold stamp_and_save, bind, Date_now. rewrite Hnull. discriminate.
    + destruct (stamp_and_save_ok data (logged (refresh_request C rt) w) Hnull)
        as (tokens & w' & -> & _). discriminate.
Qed.

(** C5, as the code has it.  Whether the stored record has an
    [access_token] plays no part: [/token-status] answers
    [authorized: true] exactly when a record is stored;
    [getValidAccessToken] never fails with Unauthorized on a stored
    record; and for a stored record without [access_token] that is more
    than two minutes from expiry it does not fail at all: it returns
    [undefined]. *)
Theorem authorized_means_record_stored w :
  (exists resp w',
      token_status E w = (inr resp, w')
      /\ get "authorized" (payload resp)
         = VBool (match stored_record w with Some _ => true | None => false end))
  /\ (forall r,
        stored_record w = Some r ->
        fst (getValidAccessToken E C w) <> inl Unauthorized)
  /\ (forall r e,
        stored_record w = Some r ->
        get "access_token" r = VUndefined ->
        get "expires_at" r = num e ->
        now_of w + 120000 < e ->
        exists w', getValidAccessToken E C w = (inr VUndefined, w')).
Proof.
  split; [apply token_status_authorized|]. split.
  - intros r Hrec. apply stored_record_disk in Hrec as [Hdisk Htr].
    past_line_86 Hdisk Htr.
    destruct (near_or_past_expiry E (now_of w) r); [|discriminate].
    destruct (truthy (get "refresh_token" r)); cbn [negb]; [|discriminate].
    pose proof (refreshAccessToken_not_Unauthorized (get "refresh_token" r)
                  (ticked w)) as Hkind.
    destruct (refreshAccessToken E C _ (ticked w)) as [[err|tokens] w'];
      cbn [fst] in *; [congruence | discriminate].
  - intros r e Hrec Hlacks He Hfar. exists (ticked w).
    rewrite <- Hlacks. now apply (getValidAccessToken_far_from_expiry w r e).
Qed.

End Properties.

(* ===================================================================== *)
(** ** The theorems at concrete worlds *)
(* ===================================================================== *)

(** At 1000 ms, a record expiring at 500000 ms: the stored token is
    returned and nothing is sent. *)
Lemma fresh_token_run :
  1000 + 120000 < 500000
  /\ exists w',
      getValidAccessToken run_engine run_config
        (world_at 1000 1 (Stored (token_record 500000)) refused)
      = (inr (VStr "at-1"), w')
      /\ sent w' = []
      /\ disk w' = Stored (token_record 500000).
Proof.
  split; [reflexivity|].
  exact (getValidAccessToken_fresh_token run_engine run_config
           (world_at 1000 1 (Stored (token_record 500000)) refused)
           (token_record 500000) 500000 eq_refl eq_refl eq_refl).
Defined.

(** At 500000 ms, a record expiring at 500000 ms, an endpoint that grants:
    one refresh request, the new token returned. *)
Lemma refresh_run :
  (exists res w',
      getValidAccessToken run_engine run_config
        (world_at 500000 1 (Stored (token_record 500000))
           (Status 200 granted_record))
      = (res, w')
      /\ sent w' = [refresh_request run_config (VStr "rt-1")])
  /\ (exists tokens w',
        getValidAccessToken run_engine run_config
          (world_at 500000 1 (Stored (token_record 500000))
             (Status 200 granted_record))
        = (inr (VStr "at-2"), w')
        /\ disk w' = Stored (json tokens)
        /\ (forall k, k <> "expires_at" -> get k tokens = get k granted_record)).
Proof.
  assert (Hnear : spec_near_or_past_expiry
                    (now_of (world_at 500000 1 (Stored (token_record 500000))
                               (Status 200 granted_record)))
                    (token_record 500000)).
  { right. exists 500000. split; [reflexivity | vm_compute; discriminate]. }
  destruct (getValidAccessToken_refreshes run_engine run_config
              (world_at 500000 1 (Stored (token_record 500000))
                 (Status 200 granted_record))
              (token_record 500000) eq_refl Hnear eq_refl)
    as [Honce Hgrant].
  split; [exact Honce|].
  exact (Hgrant 200 granted_record eq_refl eq_refl eq_refl).
Defined.

(** The same record, an endpoint that refuses with 400: the error comes
    back and the file is as it was. *)
Lemma refused_refresh_run :
  rejected (next_reply (world_at 500000 1 (Stored (token_record 500000)) refused))
  = true
  /\ (exists w',
        refreshAccessToken run_engine run_config (VStr "rt-1")
          (world_at 500000 1 (Stored (token_record 500000)) refused)
        = (inl (AxiosError refused), w')
        /\ disk w' = Stored (token_record 500000))
  /\ (exists w',
        getValidAccessToken run_engine run_config
          (world_at 500000 1 (Stored (token_record 500000)) refused)
        = (inl (AxiosError refused), w')
        /\ disk w' = Stored (token_record 500000)).
Proof.
  destruct (refresh_failure_propagates_store_intact run_engine run_config
              (world_at 500000 1 (Stored (token_record 500000)) refused)
              eq_refl) as [Hrefresh Hget].
  split; [reflexivity|]. split.
  - exact (Hrefresh (VStr "rt-1")).
  - apply (Hget (token_record 500000)); try reflexivity.
    right. exists 500000. split; [reflexivity | vm_compute; discriminate].
Defined.

(** No file: Unauthorized.  A record past expiry without refresh token:
    MissingRefreshToken.  Nothing is sent in either case. *)
Lemma failure_runs :
  getValidAccessToken run_engine run_config (world_at 1000 1 Missing refused)
  = (inl Unauthorized, world_at 1000 1 Missing refused)
  /\ (exists w',
        getValidAccessToken run_engine run_config
          (world_at 500000 1 (Stored (record_without_refresh_token 1000))
             (Status 200 granted_record))
        = (inl MissingRefreshToken, w')
        /\ sent w' = []
        /\ disk w' = Stored (record_without_refresh_token 1000)).
Proof.
  split.
  - exact (proj1 (getValidAccessToken_failures run_engine run_config
                    (world_at 1000 1 Missing refused)) eq_refl).
  - apply (proj2 (getValidAccessToken_failures run_engine run_config
                    (world_at 500000 1
                       (Stored (record_without_refresh_token 1000))
                       (Status 200 granted_record)))
             (record_without_refresh_token 1000)); try reflexivity.
    right. exists 1000. split; [reflexivity | vm_compute; discriminate].
Defined.

(** C5, as stated, fails: a stored record without [access_token], not near
    expiry, is not treated as the unauthorized state.  [/token-status]
    answers [authorized: true] for it and [getValidAccessToken] returns
    [undefined], where the unauthorized state gets [authorized: false] and
    Unauthorized. *)
Lemma record_without_access_token_is_authorized :
  has_key "access_token" (record_without_access_token 500000) = false
  /\ authorized_answer run_engine
       (world_at 1000 1 (Stored (record_without_access_token 500000)) refused)
     = VBool true
  /\ authorized_answer run_engine
       (without_record
          (world_at 1000 1 (Stored (record_without_access_token 500000))
             refused))
     = VBool false
  /\ fst (getValidAccessToken run_engine run_config
            (world_at 1000 1 (Stored (record_without_access_token 500000))
               refused))
     = inr VUndefined
  /\ fst (getValidAccessToken run_engine run_config
            (without_record
               (world_at 1000 1 (Stored (record_without_access_token 500000))
                  refused)))
     = inl Unauthorized
  /\ ~ spec_treated_as_unauthorized run_engine run_config
        (world_at 1000 1 (Stored (record_without_access_token 500000)) refused).
Proof.
  repeat (split; [reflexivity|]).
  intros [Hstatus _]. vm_compute in Hstatus. discriminate Hstatus.
Defined.

(** The two answers of the run above, side by side. *)
Example record_without_access_token_answers :
  fst (token_status run_engine
         (world_at 1000 1 (Stored (record_without_access_token 500000)) refused))
  = inr (res_json 200 (VObj [("authorized", VBool true);
                             ("expires_at", num 500000);
                             ("ms_until_expiry", num 499000);
                             ("has_refresh_token", VBool true)]))
  /\ fst (token_status run_engine (world_at 1000 1 Missing refused))
     = inr (res_json 200 (VObj [("authorized", VBool false)]))
  /\ fst (getValidAccessToken run_engine run_config
            (world_at 1000 1 (Stored (record_without_access_token 500000))
               refused))
     = inr VUndefined
  /\ fst (getValidAccessToken run_engine run_config
            (world_at 1000 1 Missing refused))
     = inl Unauthorized.
Proof. repeat split. Qed.

(** What the code does with that record instead. *)
Lemma authorized_without_access_token_run :
  (exists resp w',
      token_status run_engine
        (world_at 1000 1 (Stored (record_without_access_token 500000)) refused)
      = (inr resp, w')
      /\ get "authorized" (payload resp) = VBool true)
  /\ fst (getValidAccessToken run_engine run_config
            (world_at 1000 1 (Stored (record_without_access_token 500000))
               refused))
     <> inl Unauthorized
  /\ (exists w',
        getValidAccessToken run_engine run_config
          (world_at 1000 1 (Stored (record_without_access_token 500000))
             refused)
        = (inr VUndefined, w')).
Proof.
  destruct (authorized_means_record_stored run_engine run_config
              (world_at 1000 1 (Stored (record_without_access_token 500000))
                 refused)) as (Hstatus & Hnever & Hget).
  split; [exact Hstatus|]. split.
  - exact (Hnever (record_without_access_token 500000) eq_refl).
  - apply (Hget (record_without_access_token 500000) 500000); reflexivity.
Defined.

(** John Doe with a valid stored token: one request downstream, with the
    body of the specification's scenario. *)
Lemma john_doe_run :
  exists resp w2 p,
    post_lead run_engine run_config john_doe
      (world_at 1000 1 (Stored (token_record 500000)) created)
    = (inr resp, w2)
    /\ sent w2 = [{| url := LEADS_URL; body := p; bearer := Some (VStr "at-1") |}]
    /\ get "first_name" p = VStr "John"
    /\ get "last_name" p = VStr "Doe"
    /\ get "email" p = VStr "j@x.com"
    /\ get "cell_phone_number" p = VNull
    /\ get "address" p
       = VObj [("address1", VStr ""); ("address2", VStr "");
               ("city", VStr ""); ("state", VStr "");
               ("zip_code", VStr ""); ("country", VStr "US")]
    /\ get "lead_details" p = VStr ""
    /\ has_key "custom_field_values" p = false
    /\ (get "customFieldId" john_doe = VUndefined ->
        has_key "custom_field_values" p = false).
Proof.
  exact (post_lead_submission_body run_engine run_config john_doe
           (world_at 1000 1 (Stored (token_record 500000)) created)
           (VStr "at-1")
           (ticked (world_at 1000 1 (Stored (token_record 500000)) created))
           eq_refl eq_refl eq_refl).
Defined.

(** The two scenarios of the specification, body for body. *)
Example john_doe_bodies :
  map body
    (sent (snd (post_lead run_engine run_config john_doe
                  (world_at 1000 1 (Stored (token_record 500000)) created))))
  = [VObj [("first_name", VStr "John"); ("last_name", VStr "Doe");
           ("email", VStr "j@x.com"); ("cell_phone_number", VNull);
           ("address",
            VObj [("address1", VStr ""); ("address2", VStr "");
                  ("city", VStr ""); ("state", VStr "");
                  ("zip_code", VStr ""); ("country", VStr "US")]);
           ("lead_details", VStr "")]]
  /\ map body
       (sent (snd (post_lead run_engine run_config john_doe_typed
                     (world_at 1000 1 (Stored (token_record 500000)) created))))
     = map body
         (sent (snd (post_lead run_engine run_config john_doe
                       (world_at 1000 1 (Stored (token_record 500000))
                          created)))).
Proof. split; reflexivity. Qed.

(** Eleven hours left: one refresh request.  Thirteen: none. *)
Lemma keep_alive_runs :
  (exists w',
      backgroundRefresher run_engine run_config
        (world_at 1000 1 (Stored (token_record (1000 + 11 * hour)))
           (Status 200 granted_record))
      = (inr tt, w')
      /\ sent w' = [refresh_request run_config (VStr "rt-1")])
  /\ (exists w',
        backgroundRefresher run_engine run_config
          (world_at 1000 1 (Stored (token_record (1000 + 13 * hour)))
             (Status 200 granted_record))
        = (inr tt, w')
        /\ sent w' = []
        /\ disk w' = Stored (token_record (1000 + 13 * hour))).
Proof.
  split.
  - apply (proj1
             (proj2 (proj2 (backgroundRefresher_threshold run_engine run_config
                              (world_at 1000 1
                                 (Stored (token_record (1000 + 11 * hour)))
                                 (Status 200 granted_record))))
                (token_record (1000 + 11 * hour)) (1000 + 11 * hour)
                eq_refl eq_refl eq_refl)).
    reflexivity.
  - apply (proj2
             (proj2 (proj2 (backgroundRefresher_threshold run_engine run_config
                              (world_at 1000 1
                                 (Stored (token_record (1000 + 13 * hour)))
                                 (Status 200 granted_record))))
                (token_record (1000 + 13 * hour)) (1000 + 13 * hour)
                eq_refl eq_refl eq_refl)).
    vm_compute. discriminate.
Defined.

(** Saving a record twice while the clock stands at 1000 ms. *)
Lemma save_twice_run :
  token_record 0 <> VUndefined
  /\ exists t1 w1,
      saveTokens run_engine (token_record 0) (world_at 1000 0 Missing refused)
      = (inr t1, w1)
      /\ now_of w1 = now_of (world_at 1000 0 Missing refused)
      /\ stored_expires_at w1 = num 86401000
      /\ (exists t2 w2,
             saveTokens run_engine t1 w1 = (inr t2, w2)
             /\ stored_expires_at w2 = stored_expires_at w1)
      /\ (exists t2 w2,
             saveTokens run_engine (token_record 0) w1 = (inr t2, w2)
             /\ stored_expires_at w2 = stored_expires_at w1).
Proof.
  assert (Hdef : token_record 0 <> VUndefined) by discriminate.
  split; [exact Hdef|].
  destruct (saveTokens_idempotent run_engine (token_record 0)
              (world_at 1000 0 Missing refused) Hdef)
    as (t1 & w1 & Hrun & Hsecond).
  assert (Hw1 : now_of w1 = now_of (world_at 1000 0 Missing refused)
                /\ stored_expires_at w1 = num 86401000).
  { vm_compute in Hrun. injection Hrun as <- <-. split; reflexivity. }
  destruct Hw1 as [Hsame Hat].
  destruct (Hsecond Hsame)
    as [(t2 & w2 & Hrun2 & _ & Hat2) (t3 & w3 & Hrun3 & _ & Hat3)].
  exists t1, w1. repeat split; eauto.
Defined.

(** Eleven hours left, no refresh token, an endpoint that refuses: the
    request goes out with [refresh_token: undefined], the firing returns,
    the file is as it was. *)
Lemma keep_alive_without_refresh_token_run :
  exists w',
    backgroundRefresher run_engine run_config
      (world_at 1000 1 (Stored (record_without_refresh_token (1000 + 11 * hour)))
         refused)
    = (inr tt, w')
    /\ sent w' = [refresh_request run_config VUndefined]
    /\ disk w' = Stored (record_without_refresh_token (1000 + 11 * hour)).
Proof.
  destruct (backgroundRefresher_without_refresh_token run_engine run_config
              (world_at 1000 1
                 (Stored (record_without_refresh_token (1000 + 11 * hour)))
                 refused)
              (record_without_refresh_token (1000 + 11 * hour))
              (1000 + 11 * hour) eq_refl eq_refl eq_refl eq_refl eq_refl)
    as (w' & Hrun & Hsent & Hdisk).
  exists w'. split; [exact Hrun|]. split; [exact Hsent|].
  apply Hdisk. reflexivity.
Defined.

(** A grant without [expires_in] processed at 1000 ms: the stored
    [expires_at] is 1000, and the token is due at every later reading. *)
Lemma grant_without_lifetime_run :
  exists tokens w' rec,
    refreshAccessToken run_engine run_config (VStr "rt-1")
      (world_at 1000 1 Missing (Status 200 (VObj granted_without_lifetime)))
    = (inr tokens, w')
    /\ disk w' = Stored rec
    /\ get "expires_at" rec = num 1000
    /\ forall w2,
         disk w2 = disk w' -> 1000 <= now_of w2 ->
         near_or_past_expiry run_engine (now_of w2) rec = true.
Proof.
  destruct (missing_expires_in_expires_at_once run_engine run_config
              (world_at 1000 1 Missing
                 (Status 200 (VObj granted_without_lifetime)))
              200 granted_without_lifetime eq_refl eq_refl eq_refl
              (refreshAccessToken run_engine run_config (VStr "rt-1"))
              (or_intror (ex_intro _ (VStr "rt-1") eq_refl)))
    as (tokens & w' & rec & Hrun & Hdisk & Hat & Hnext).
  exists tokens, w', rec. repeat split; auto.
  intros w2 Hsame Hlater. exact (proj1 (Hnext w2 Hsame Hlater)).
Defined.

(* ===================================================================== *)
(** ** Further properties of the token lifecycle *)
(* ===================================================================== *)

Section Lifecycle.

Context (E : engine) (C : config).

(** Lines 49-55 and 67-74 after the request [rq] went out: the request is
    logged; a failure leaves the file alone; a success comes from a 2xx
    answer that is neither [null] nor [undefined], and the file then holds
    the JSON text of what is returned. *)
Lemma post_then_stamp_outcome rq w :
  let (res, w') := bind (axios_post rq) (stamp_and_save E) w in
  sent w' = (sent w ++ [rq])%list
  /\ match res with
     | inl err => disk w' = disk w
     | inr tokens =>
         disk w' = Stored (json tokens)
         /\ exists code data,
             next_reply w = Status code data /\ ok_status code = true
             /\ nullish data = false
             /\ forall k, k <> "expires_at" -> get k tokens = get k data
     end.
Proof.
  unfold bind, axios_post.
  destruct (next_reply w) as [m|code data] eqn:Hreply; [now split|].
  destruct (ok_status code) eqn:Hok; [|now split].
  destruct (nullish data) eqn:Hnull.
  - unfold stamp_and_save, bind, Date_now. rewrite Hnull. now split.
  - destruct (stamp_and_save_ok E data (logged rq w) Hnull)
      as (tokens & w' & -> & Hdisk & Hsent & Hkeys).
    split; [exact Hsent|]. split; [exact Hdisk|].
    exists code, data. auto.
Qed.

(** These lines raise what axios or the engine raises, never an [Error]
    of the program's own. *)
Lemma post_then_stamp_error_kind rq w msg :
  fst (bind (axios_post rq) (stamp_and_save E) w) <> inl (Error msg).
Proof.
  unfold bind, axios_post.
  destruct (next_reply w) as [m|code data]; [discriminate|].
  destruct (ok_status code); [|discriminate].
  destruct (nullish data) eqn:Hnull.
  - unfold stamp_and_save, bind, Date_now. rewrite Hnull. discriminate.
  - destruct (stamp_and_save_ok E data (logged rq w) Hnull)
      as (tokens & w' & -> & _). discriminate.
Qed.

Lemma refreshAccessToken_as_post rt w :
  refreshAccessToken E C rt w
  = bind (axios_post (refresh_request C rt)) (stamp_and_save E) w.
Proof.
  unfold refreshAccessToken, try_catch.
  now destruct (bind _ _ w) as [[err|tokens] w'].
Qed.

Lemma exchangeCodeForTokens_as_post code w :
  exchangeCodeForTokens E C code w
  = bind (axios_post (exchange_request C code)) (stamp_and_save E) w.
Proof. reflexivity. Qed.

(** Lines 82-93, case by case. *)
Lemma getValidAccessToken_unfold w :
  getValidAccessToken E C w
  = match stored_record w with
    | None => (inl Unauthorized, w)
    | Some r =>
        if near_or_past_expiry E (now_of w) r then
          if truthy (get "refresh_token" r) then
            let (res, w') :=
              refreshAccessToken E C (get "refresh_token" r) (ticked w) in
            match res with
            | inl err => (inl err, w')
            | inr tokens => (inr (get "access_token" tokens), w')
            end
          else (inl MissingRefreshToken, ticked w)
        else (inr (get "access_token" r), ticked w)
    end.
Proof.
  destruct (stored_record w) as [r|] eqn:Hrec.
  - apply stored_record_disk in Hrec as [Hdisk Htr]. past_line_86 Hdisk Htr.
    destruct (near_or_past_expiry E (now_of w) r); [|reflexivity].
    now destruct (truthy (get "refresh_token" r)).
  - apply stored_record_none in Hrec as (v & Hload & Hv).
    unfold getValidAccessToken, bind. now rewrite Hload, Hv.
Qed.

(** X1.  [refreshAccessToken] and [exchangeCodeForTokens] write the token
    file only when they return: whatever makes them fail (no answer, a
    status outside 2xx, a 2xx answer whose content is [null]), the file is
    as it was; and when they return, the file holds the JSON text of the
    record returned.  Either way exactly one request has gone out. *)
Theorem token_calls_write_only_on_success w run rq res w' :
  (exists rt, run = refreshAccessToken E C rt /\ rq = refresh_request C rt)
  \/ (exists code,
         run = exchangeCodeForTokens E C code /\ rq = exchange_request C code) ->
  run w = (res, w') ->
  sent w' = (sent w ++ [rq])%list
  /\ match res with
     | inl _ => disk w' = disk w
     | inr tokens => disk w' = Stored (json tokens)
     end.
Proof.
  intros Hrun Hres.
  assert (Hpost : run w = bind (axios_post rq) (stamp_and_save E) w).
  { destruct Hrun as [(rt & -> & ->) | (code & -> & ->)].
    - apply refreshAccessToken_as_post.
    - apply exchangeCodeForTokens_as_post. }
  pose proof (post_then_stamp_outcome rq w) as Hout.
  rewrite <- Hpost, Hres in Hout. destruct Hout as [Hsent Hfile].
  split; [exact Hsent|]. destruct res as [err|tokens]; tauto.
Qed.

(** X2.  [getValidAccessToken] sends at most one request, and only ever
    the refresh request for the stored refresh token; when it fails, for
    whatever reason, the token file is as it was, and when it fails for
    want of a record or of a refresh token nothing has been sent. *)
Theorem getValidAccessToken_footprint w res w' :
  getValidAccessToken E C w = (res, w') ->
  (sent w' = sent w
   \/ exists r, stored_record w = Some r
        /\ sent w' = (sent w ++ [refresh_request C (get "refresh_token" r)])%list)
  /\ (forall err, res = inl err -> disk w' = disk w)
  /\ (res = inl Unauthorized \/ res = inl MissingRefreshToken ->
      sent w' = sent w).
Proof.
  rewrite getValidAccessToken_unfold.
  destruct (stored_record w) as [r|] eqn:Hrec;
    [|intros [= <- <-]; now auto].
  destruct (near_or_past_expiry E (now_of w) r).
  - destruct (truthy (get "refresh_token" r)).
    + rewrite refreshAccessToken_as_post.
      pose proof (post_then_stamp_outcome
                    (refresh_request C (get "refresh_token" r)) (ticked w))
        as Hout.
      assert (Hkind : forall msg,
                 fst (bind (axios_post
                              (refresh_request C (get "refresh_token" r)))
                        (stamp_and_save E) (ticked w)) <> inl (Error msg))
        by (intros msg; apply post_then_stamp_error_kind).
      destruct (bind _ _ (ticked w)) as [[err|tokens] w1];
        intros [= <- <-]; destruct Hout as [Hsent Hdisk].
      * split; [right; eauto|]. split; [intros ? _; exact Hdisk|].
        intros [Hbad | Hbad]; injection Hbad as ->;
          exfalso; eapply Hkind; reflexivity.
      * split; [right; eauto|].
        split; [discriminate | intros [?|?]; discriminate].
    + intros [= <- <-]. split; [now left|]. split; auto.
  - intros [= <- <-]. split; [now left|].
    split; [discriminate | intros [?|?]; discriminate].
Qed.

Lemma has_key_update_other k k' x fs :
  k <> k' ->
  has_key k (VObj (update k' x fs)) = has_key k (VObj fs).
Proof.
  intros Hne. simpl. induction fs as [|[k0 v] fs IH]; simpl.
  - apply not_eq_sym, String.eqb_neq in Hne. now rewrite Hne.
  - destruct (String.eqb_spec k' k0) as [->|Hne0]; simpl; [reflexivity|].
    now rewrite IH.
Qed.

(** A key the object does not have is not in the file either. *)
Lemma get_json_absent k fs :
  has_key k (VObj fs) = false -> get k (json (VObj fs)) = VUndefined.
Proof.
  simpl. induction fs as [|[k' v] fs IH]; simpl; [reflexivity|].
  intros Habs. apply orb_false_iff in Habs as [Hk Hrest].
  rewrite String.eqb_sym in Hk.
  destruct v; simpl; rewrite ?Hk; auto.
Qed.

(** Lines 71-74 on an object: what is returned and written is the object
    received with its [expires_at] assigned. *)
Lemma stamp_and_save_obj fs w :
  exists x w',
    stamp_and_save E (VObj fs) w = (inr (set "expires_at" x (VObj fs)), w')
    /\ disk w' = Stored (json (set "expires_at" x (VObj fs)))
    /\ sent w' = sent w.
Proof.
  unfold stamp_and_save, saveTokens, bind, Date_now, ret. cbn [nullish].
  match goal with |- context [truthy ?t && truthy (get "expires_in" ?t)] =>
    destruct (truthy t && truthy (get "expires_in" t))
  end.
  - rewrite set_set. cbn [set JSON_stringify write_file].
    do 2 eexists. split; [reflexivity|]. now cbn.
  - cbn [set JSON_stringify write_file].
    do 2 eexists. split; [reflexivity|]. now cbn.
Qed.



Lemma post_then_stamp_resolved rq w code data :
  next_reply w = Status code data -> ok_status code = true ->
  bind (axios_post rq) (stamp_and_save E) w
  = stamp_and_save E data (logged rq w).
Proof.
  intros Hreply Hok. unfold bind.
  now rewrite (axios_post_resolved _ _ _ _ Hreply Hok).
Qed.



Lemma stored_record_of_disk w v :
  disk w = Stored v -> stored_record w = if truthy v then Some v else None.
Proof. intros H. unfold stored_record, loadTokens. now rewrite H. Qed.

(** X5.  A refresh replaces the stored record by the answer alone: nothing
    of the old record is carried over.  When the 2xx answer has no
    [refresh_token] key, the stored record has no refresh token any more,
    and the next [getValidAccessToken] that finds it near or past expiry
    fails with MissingRefreshToken without sending anything. *)
Theorem refresh_does_not_keep_the_old_refresh_token w code fs rt :
  next_reply w = Status code (VObj fs) -> ok_status code = true ->
  has_key "refresh_token" (VObj fs) = false ->
  exists tokens w' rec,
    refreshAccessToken E C rt w = (inr tokens, w')
    /\ disk w' = Stored rec
    /\ get "refresh_token" rec = VUndefined
    /\ forall w2,
         disk w2 = disk w' ->
         spec_near_or_past_expiry (now_of w2) rec ->
         getValidAccessToken E C w2 = (inl MissingRefreshToken, ticked w2).
Proof.
  intros Hreply Hok Hnokey.
  rewrite refreshAccessToken_as_post,
    (post_then_stamp_resolved _ w code _ Hreply Hok).
  destruct (stamp_and_save_obj fs (logged (refresh_request C rt) w))
    as (x & w' & -> & Hdisk & _).
  assert (Hnone : get "refresh_token" (json (set "expires_at" x (VObj fs)))
                  = VUndefined).
  { apply get_json_absent. now rewrite has_key_update_other. }
  do 3 eexists. split; [reflexivity|]. split; [exact Hdisk|].
  split; [exact Hnone|]. intros w2 Hsame Hnear.
  rewrite Hdisk in Hsame.
  rewrite getValidAccessToken_unfold, (stored_record_of_disk _ _ Hsame).
  cbn [set json truthy].
  change (VObj _) with (json (set "expires_at" x (VObj fs))).
  now rewrite (spec_near_or_past_expiry_sound E _ _ Hnear), Hnone.
Qed.

(** X6.  A 2xx answer to a refresh whose content is text, not a record
    (the string [s]): [getValidAccessToken] returns [undefined] to its
    caller, the stored record is replaced by the text, and from then on
    every [getValidAccessToken] fails without sending anything: with
    MissingRefreshToken, or with Unauthorized when the text was empty. *)
Theorem text_answer_destroys_the_record w r code s :
  stored_record w = Some r ->
  spec_near_or_past_expiry (now_of w) r ->
  truthy (get "refresh_token" r) = true ->
  next_reply w = Status code (VStr s) -> ok_status code = true ->
  exists w',
    getValidAccessToken E C w = (inr VUndefined, w')
    /\ disk w' = Stored (VStr s)
    /\ forall w2,
         disk w2 = disk w' ->
         exists w3,
           getValidAccessToken E C w2
           = (inl (if (s =? "")%string then Unauthorized
                   else MissingRefreshToken), w3)
           /\ sent w3 = sent w2.
Proof.
  intros Hrec Hnear Hrt Hreply Hok.
  rewrite getValidAccessToken_unfold, Hrec,
    (spec_near_or_past_expiry_sound E _ _ Hnear), Hrt.
  rewrite refreshAccessToken_as_post,
    (post_then_stamp_resolved _ (ticked w) code _ Hreply Hok).
  unfold stamp_and_save, saveTokens, bind, Date_now, ret.
  cbn [nullish set get truthy andb]. rewrite andb_false_r.
  cbn [JSON_stringify json write_file].
  eexists. split; [reflexivity|]. split; [reflexivity|].
  intros w2 Hsame. cbn [disk] in Hsame.
  rewrite getValidAccessToken_unfold, (stored_record_of_disk _ _ Hsame).
  cbn [truthy]. destruct (s =? "")%string; cbn [negb].
  - now exists w2.
  - unfold near_or_past_expiry. cbn [get truthy negb orb].
    now exists (ticked w2).
Qed.

(** Lines 96-112, case by case. *)
Lemma backgroundRefresher_unfold w :
  backgroundRefresher E C w
  = match stored_record w with
    | None => (inr tt, w)
    | Some r =>
        if truthy (get "expires_at" r) then
          if num_ltb (num_sub (to_number E (get "expires_at" r))
                              (Int (now_of w)))
                     (Int (12 * 60 * 60 * 1000))
          then (inr tt,
                snd (refreshAccessToken E C (get "refresh_token" r)
                       (ticked w)))
          else (inr tt, ticked w)
        else (inr tt, w)
    end.
Proof.
  destruct (stored_record w) as [r|] eqn:Hrec.
  - apply stored_record_disk in Hrec as [Hdisk Htr].
    unfold backgroundRefresher, try_catch, bind, loadTokens, Date_now.
    rewrite Hdisk, Htr. cbn [negb orb].
    destruct (truthy (get "expires_at" r)); cbn [negb]; [|reflexivity].
    destruct (num_ltb _ _); [|reflexivity].
    now destruct (refreshAccessToken E C _ (ticked w)) as [[err|tokens] w'].
  - apply stored_record_none in Hrec as (v & Hload & Hv).
    unfold backgroundRefresher, try_catch, bind. now rewrite Hload, Hv.
Qed.

(** X7.  One firing of the background refresher, whatever the world:
    it returns (the catch of line 109 lets nothing through), it sends at
    most one request, the refresh request for the stored refresh token, and
    it leaves the token file as it was unless the endpoint answered 2xx
    with something other than [null]. *)
Theorem backgroundRefresher_footprint w :
  exists w',
    backgroundRefresher E C w = (inr tt, w')
    /\ (sent w' = sent w
        \/ exists r,
             stored_record w = Some r
             /\ sent w'
                = (sent w ++ [refresh_request C (get "refresh_token" r)])%list)
    /\ (disk w' = disk w
        \/ exists code data,
             next_reply w = Status code data /\ ok_status code = true
             /\ nullish data = false).
Proof.
  rewrite backgroundRefresher_unfold.
  destruct (stored_record w) as [r|] eqn:Hrec;
    [|exists w; repeat split; now left].
  destruct (truthy (get "expires_at" r));
    [|exists w; repeat split; now left].
  destruct (num_ltb _ _); [|exists (ticked w); repeat split; now left].
  eexists. split; [reflexivity|].
  rewrite refreshAccessToken_as_post.
  pose proof (post_then_stamp_outcome
                (refresh_request C (get "refresh_token" r)) (ticked w)) as Hout.
  destruct (bind _ _ (ticked w)) as [[err|tokens] w'];
    destruct Hout as [Hsent Hfile]; cbn [snd].
  - split; [right; eauto | now left].
  - destruct Hfile as (_ & code & data & Hreply & Hok & Hnull & _).
    split; [right; eauto | right; eauto].
Qed.


(* --------------------------------------------------------------------- *)
(** *** The handlers *)

(** What [getValidAccessToken] adds to the log of requests. *)
Lemma getValidAccessToken_sent w :
  sent (snd (getValidAccessToken E C w)) = sent w
  \/ exists r,
       stored_record w = Some r
       /\ sent (snd (getValidAccessToken E C w))
          = (sent w ++ [refresh_request C (get "refresh_token" r)])%list.
Proof.
  rewrite getValidAccessToken_unfold.
  destruct (stored_record w) as [r|] eqn:Hrec; [|now left].
  destruct (near_or_past_expiry E (now_of w) r); [|now left].
  destruct (truthy (get "refresh_token" r)); [|now left].
  right. exists r. split; [reflexivity|].
  pose proof (refreshAccessToken_sends_one E C (get "refresh_token" r)
                (ticked w)) as Hsent.
  now destruct (refreshAccessToken E C _ (ticked w)) as [[err|tokens] w'].
Qed.

(** Lines 169-207 on a lead that passed line 165. *)
Lemma post_lead_unfold b w :
  truthy (get "firstName" b) = true -> truthy (get "lastName" b) = true ->
  post_lead E C b w
  = match getValidAccessToken E C w with
    | (inl err, w1) => (inr (lead_failure err), w1)
    | (inr tok, w1) =>
        (inr (if rejected (next_reply w1)
              then lead_failure (AxiosError (next_reply w1))
              else match next_reply w1 with
                   | Status _ data =>
                       res_json 200 (VObj [("success", VBool true);
                                           ("data", data)])
                   | NetworkError m =>
                       lead_failure (AxiosError (NetworkError m))
                   end),
         logged (lead_request b tok) w1)
    end.
Proof.
  intros Hfirst Hlast. pose proof (truthy_get_truthy _ _ Hfirst) as Hbody.
  unfold post_lead. rewrite Hbody, Hfirst, Hlast. cbn [negb orb].
  unfold try_catch, bind.
  destruct (getValidAccessToken E C w) as [[err|tok] w1]; [reflexivity|].
  unfold axios_post, rejected.
  destruct (next_reply w1) as [m|code data]; [reflexivity|].
  now destruct (ok_status code).
Qed.

Lemma post_lead_invalid b w :
  truthy (get "firstName" b) = false \/ truthy (get "lastName" b) = false ->
  post_lead E C b w
  = (inr (res_json 400
            (VObj [("error", VStr "firstName and lastName are required")])),
     w).
Proof.
  intros Hbad. unfold post_lead.
  replace (negb (truthy b) || negb (truthy (get "firstName" b))
           || negb (truthy (get "lastName" b))) with true; [reflexivity|].
  symmetry. destruct Hbad as [-> | ->]; cbn [negb];
    now rewrite ?orb_true_r.
Qed.

(** X9.  [POST /lead] always answers, with status 200, 400 or 500.  It
    answers 400 exactly when [firstName] or [lastName] is missing (falsy),
    and then it has touched nothing: no token lookup, no reading of the
    clock, no request. *)
Theorem post_lead_validation b w :
  exists resp w',
    post_lead E C b w = (inr resp, w')
    /\ (status resp = 200 \/ status resp = 400 \/ status resp = 500)
    /\ (status resp = 400 <->
        truthy (get "firstName" b) = false
        \/ truthy (get "lastName" b) = false)
    /\ (status resp = 400 -> w' = w).
Proof.
  destruct (truthy (get "firstName" b)) eqn:Hfirst;
    [destruct (truthy (get "lastName" b)) eqn:Hlast|].
  - rewrite (post_lead_unfold b w Hfirst Hlast).
    assert (Hnot : ~ (true = false \/ true = false)) by (intros [?|?]; discriminate).
    destruct (getValidAccessToken E C w) as [[err|tok] w1].
    + do 2 eexists. split; [reflexivity|]. cbn [lead_failure res_json status].
      repeat split; auto; try discriminate; tauto.
    + do 2 eexists. split; [reflexivity|].
      destruct (rejected (next_reply w1)); [|destruct (next_reply w1)];
        cbn [lead_failure res_json status];
        repeat split; auto; try discriminate; tauto.
  - rewrite post_lead_invalid by auto. do 2 eexists.
    split; [reflexivity|]. cbn [res_json status]. repeat split; auto.
  - rewrite post_lead_invalid by auto. do 2 eexists.
    split; [reflexivity|]. cbn [res_json status]. repeat split; auto.
Qed.

(** X10.  When no token can be had, [POST /lead] answers 500 with the
    error as details and sends nothing downstream: the only request that
    may have gone out is the refresh request.  In particular a lead posted
    before any authorization is answered with the "No tokens found" text
    and leaves the world as it was. *)
Theorem post_lead_without_token b w :
  truthy (get "firstName" b) = true -> truthy (get "lastName" b) = true ->
  (forall err w1,
      getValidAccessToken E C w = (inl err, w1) ->
      post_lead E C b w = (inr (lead_failure err), w1)
      /\ (sent w1 = sent w
          \/ exists rt, sent w1 = (sent w ++ [refresh_request C rt])%list))
  /\ (stored_record w = None ->
      post_lead E C b w
      = (inr (res_json 500
                (VObj [("error", VStr "Failed to create lead");
                       ("details",
                        VObj [("message",
                               VStr "No tokens found. Visit /auth to authorize the app first.")])])),
         w)).
Proof.
  intros Hfirst Hlast. rewrite (post_lead_unfold b w Hfirst Hlast). split.
  - intros err w1 Hget. pose proof (getValidAccessToken_sent w) as Hsent.
    rewrite Hget in *. cbn [snd] in Hsent. split; [reflexivity|].
    destruct Hsent as [Hsame | (r & _ & Hone)]; eauto.
  - intros Hnone. rewrite getValidAccessToken_unfold, Hnone. reflexivity.
Qed.

(** X11.  With a token in hand, [POST /lead] submits once and reports what
    came back: exactly one request goes downstream, bearing the token; the
    token file is not touched by the submission; the answer is 200 with
    the downstream data when the downstream status is 2xx and 500 with the
    downstream error otherwise.  There is no second attempt. *)
Theorem post_lead_submits_once b w tok w1 :
  truthy (get "firstName" b) = true -> truthy (get "lastName" b) = true ->
  getValidAccessToken E C w = (inr tok, w1) ->
  exists resp w',
    post_lead E C b w = (inr resp, w')
    /\ sent w' = (sent w1 ++ [lead_request b tok])%list
    /\ disk w' = disk w1
    /\ (forall code data,
           next_reply w1 = Status code data -> ok_status code = true ->
           resp = res_json 200 (VObj [("success", VBool true); ("data", data)]))
    /\ (rejected (next_reply w1) = true ->
        resp = lead_failure (AxiosError (next_reply w1))).
Proof.
  intros Hfirst Hlast Htoken.
  rewrite (post_lead_unfold b w Hfirst Hlast), Htoken.
  do 2 eexists. split; [reflexivity|]. repeat split.
  - intros code data Hreply Hok. unfold rejected. now rewrite Hreply, Hok.
  - now intros ->.
Qed.



Lemma backgroundRefresher_sent_length w :
  exists w',
    backgroundRefresher E C w = (inr tt, w')
    /\ (length (sent w') <= S (length (sent w)))%nat.
Proof.
  rewrite backgroundRefresher_unfold.
  destruct (stored_record w) as [r|]; [|eauto].
  destruct (truthy (get "expires_at" r)); [|eauto].
  destruct (num_ltb _ _); [|exists (ticked w); auto].
  eexists. split; [reflexivity|].
  rewrite (refreshAccessToken_sends_one E C _ (ticked w)), length_app.
  cbn. lia.
Qed.

(** X17.  The timer of line 115 over [n] firings: no firing throws, at
    most [n] requests go out in all, and as long as no record is stored
    the firings change nothing at all. *)
Theorem interval_firings_footprint n w :
  (exists w',
      interval_firings E C n w = (inr tt, w')
      /\ (length (sent w') <= length (sent w) + n)%nat)
  /\ (stored_record w = None -> interval_firings E C n w = (inr tt, w)).
Proof.
  split.
  - revert w. induction n as [|n IH]; intros w.
    + exists w. split; [reflexivity | cbn; lia].
    + cbn [interval_firings]. unfold bind.
      destruct (backgroundRefresher_sent_length w) as (w1 & -> & Hone).
      destruct (IH w1) as (w' & -> & Hrest).
      exists w'. split; [reflexivity | lia].
  - intros Hnone. induction n as [|n IH]; [reflexivity|].
    cbn [interval_firings]. unfold bind.
    now rewrite backgroundRefresher_unfold, Hnone.
Qed.

(* --------------------------------------------------------------------- *)
(** *** The token file as a store of JSON values *)




End Lifecycle.

(* ===================================================================== *)
(** ** The authorization redirect *)
(* ===================================================================== *)

Lemma count_char_append c s t :
  count_char c (s ++ t) = (count_char c s + count_char c t)%nat.
Proof.
  induction s as [|c' s IH]; simpl; [reflexivity|].
  rewrite IH. apply Nat.add_assoc.
Qed.

Lemma unreserved_hex_digit n : unreserved (hex_digit n) = true.
Proof.
  destruct n as [|p]; [reflexivity|].
  do 5 (try (destruct p as [p|p|]; try reflexivity)).
Qed.

(** A character that [encodeURIComponent] does not leave alone, other
    than the percent sign, never shows in its output. *)
Lemma count_char_encodeURIComponent c s :
  unreserved c = false -> c <> "%"%char ->
  count_char c (encodeURIComponent s) = 0%nat.
Proof.
  intros Hres Hpct.
  assert (Hother : forall c', unreserved c' = true -> Ascii.eqb c c' = false).
  { intros c' Hc'. apply Ascii.eqb_neq. intros ->. congruence. }
  induction s as [|c' s IH]; simpl; [reflexivity|].
  rewrite count_char_append, IH, Nat.add_0_r.
  destruct (unreserved c') eqn:Hc'; simpl.
  - now rewrite (Hother c' Hc').
  - apply Ascii.eqb_neq in Hpct. rewrite Hpct.
    now rewrite !Hother by apply unreserved_hex_digit.
Qed.

Lemma percent_decode_plain c s :
  c <> "%"%char -> percent_decode (String c s) = String c (percent_decode s).
Proof.
  intros Hpct.
  destruct c as [[] [] [] [] [] [] [] []]; try reflexivity; now elim Hpct.
Qed.

Lemma percent_decode_percent c s :
  percent_decode (percent c ++ s) = String c (percent_decode s).
Proof.
  destruct c as [[] [] [] [] [] [] [] []]; reflexivity.
Qed.

(** Decoding undoes [encodeURIComponent]. *)
Lemma percent_decode_encodeURIComponent s :
  percent_decode (encodeURIComponent s) = s.
Proof.
  induction s as [|c s IH]; [reflexivity|]. cbn [encodeURIComponent].
  destruct (unreserved c) eqn:Hc.
  - cbn [append]. rewrite percent_decode_plain, IH; [reflexivity|].
    intros ->. discriminate Hc.
  - now rewrite percent_decode_percent, IH.
Qed.

Lemma append_cancel_l s a b : s ++ a = s ++ b -> a = b.
Proof.
  induction s as [|c s IH]; simpl; [auto|]. intros [= H]. auto.
Qed.

Section Auth.

Context (C : config).

(** X15.  Whatever [state] the caller supplies and whatever the
    configuration holds, the location [GET /auth] redirects to has exactly
    the four parameters of the template: three [&], four [=], one [?], and
    no character outside the unreserved set, the percent sign and the
    template's own [: / ? = &]; so no [#], no space, no quote, no line
    break. *)
Theorem get_auth_location_is_well_formed query :
  exists location,
    get_auth C query = Redirect 302 location
    /\ count_char "&" location = 3%nat
    /\ count_char "=" location = 4%nat
    /\ count_char "?" location = 1%nat
    /\ forall c,
         unreserved c = false ->
         existsb (Ascii.eqb c) (list_ascii_of_string "%:/?=&") = false ->
         count_char c location = 0%nat.
Proof.
  eexists. split; [reflexivity|].
  repeat rewrite count_char_append.
  split; [|split; [|split]].
  - now rewrite !count_char_encodeURIComponent by (reflexivity || discriminate).
  - now rewrite !count_char_encodeURIComponent by (reflexivity || discriminate).
  - now rewrite !count_char_encodeURIComponent by (reflexivity || discriminate).
  - intros c Hres Htemplate.
    assert (Hpct : c <> "%"%char).
    { intros ->. discriminate Htemplate. }
    rewrite !count_char_append.
    rewrite !(count_char_encodeURIComponent c) by assumption.
    destruct c as [[] [] [] [] [] [] [] []];
      reflexivity || discriminate Hres || discriminate Htemplate.
Qed.

(** X16.  The redirect loses nothing of the state: two requests that are
    redirected to the same location carried the same state string, so
    distinct states give distinct locations. *)
Theorem get_auth_keeps_the_state q1 q2 :
  get_auth C q1 = get_auth C q2 ->
  to_string (js_or (get "state" q1) (VStr ""))
  = to_string (js_or (get "state" q2) (VStr "")).
Proof.
  unfold get_auth. intros Hsame.
  assert (Hloc := f_equal (fun a => match a with
                                    | Redirect _ l | Text _ l => l
                                    end) Hsame).
  cbv beta iota in Hloc.
  apply (append_cancel_l
           "https://auth.mycase.com/login_sessions/new?client_id=") in Hloc.
  apply (append_cancel_l (encodeURIComponent (to_string (CLIENT_ID C))))
    in Hloc.
  apply (append_cancel_l "&redirect_uri=") in Hloc.
  apply (append_cancel_l (encodeURIComponent (to_string (REDIRECT_URI C))))
    in Hloc.
  apply (append_cancel_l "&response_type=code&state=") in Hloc.
  rewrite <- (percent_decode_encodeURIComponent
                (to_string (js_or (get "state" q1) (VStr "")))).
  rewrite Hloc. apply percent_decode_encodeURIComponent.
Qed.

End Auth.

(* ===================================================================== *)
(** ** The further properties at concrete worlds *)
(* ===================================================================== *)

(** A refused refresh: one request out, the file as before. *)
Lemma refused_refresh_keeps_file_run :
  sent (snd (refreshAccessToken run_engine run_config (VStr "rt-1")
               (expiring_world refused)))
  = [refresh_request run_config (VStr "rt-1")]
  /\ disk (snd (refreshAccessToken run_engine run_config (VStr "rt-1")
                  (expiring_world refused)))
     = Stored (token_record 500000).
Proof.
  exact (token_calls_write_only_on_success run_engine run_config
           (expiring_world refused)
           (refreshAccessToken run_engine run_config (VStr "rt-1"))
           (refresh_request run_config (VStr "rt-1"))
           (inl (AxiosError refused))
           (snd (refreshAccessToken run_engine run_config (VStr "rt-1")
                   (expiring_world refused)))
           (or_introl (ex_intro _ (VStr "rt-1") (conj eq_refl eq_refl)))
           eq_refl).
Defined.

(** [getValidAccessToken] on the same world: it fails and the file is as
    before. *)
Lemma failed_token_fetch_run :
  fst (getValidAccessToken run_engine run_config (expiring_world refused))
  = inl (AxiosError refused)
  /\ disk (snd (getValidAccessToken run_engine run_config
                  (expiring_world refused)))
     = Stored (token_record 500000).
Proof.
  split; [reflexivity|].
  destruct (getValidAccessToken_footprint run_engine run_config
              (expiring_world refused) (inl (AxiosError refused))
              (snd (getValidAccessToken run_engine run_config
                      (expiring_world refused)))
              eq_refl) as (_ & Hfile & _).
  exact (Hfile (AxiosError refused) eq_refl).
Defined.



(** A refresh answered without [refresh_token]: the stored record has
    none. *)
Lemma refresh_token_lost_run :
  has_key "refresh_token" (VObj granted_without_refresh_token) = false
  /\ exists tokens w' rec,
      refreshAccessToken run_engine run_config (VStr "rt-1")
        (expiring_world (Status 200 (VObj granted_without_refresh_token)))
      = (inr tokens, w')
      /\ disk w' = Stored rec
      /\ get "refresh_token" rec = VUndefined.
Proof.
  split; [reflexivity|].
  destruct (refresh_does_not_keep_the_old_refresh_token run_engine run_config
              (expiring_world (Status 200 (VObj granted_without_refresh_token)))
              200 granted_without_refresh_token (VStr "rt-1")
              eq_refl eq_refl eq_refl)
    as (tokens & w' & rec & Hrun & Hdisk & Hnone & _).
  exists tokens, w', rec. auto.
Defined.

(** A refresh answered 200 with a page of text. *)
Lemma text_answer_run :
  exists w',
    getValidAccessToken run_engine run_config
      (expiring_world (Status 200 (VStr "<html>ok</html>")))
    = (inr VUndefined, w')
    /\ disk w' = Stored (VStr "<html>ok</html>")
    /\ forall w2,
         disk w2 = disk w' ->
         exists w3,
           getValidAccessToken run_engine run_config w2
           = (inl MissingRefreshToken, w3)
           /\ sent w3 = sent w2.
Proof.
  refine (text_answer_destroys_the_record run_engine run_config
            (expiring_world (Status 200 (VStr "<html>ok</html>")))
            (token_record 500000) 200 "<html>ok</html>"
            eq_refl _ eq_refl eq_refl eq_refl).
  right. exists 500000. split; [reflexivity | vm_compute; discriminate].
Defined.


(** A lead without [lastName]: 400 and the world untouched. *)
Lemma incomplete_lead_run :
  exists resp,
    post_lead run_engine run_config lead_without_last_name
      (healthy_world created)
    = (inr resp, healthy_world created)
    /\ status resp = 400.
Proof.
  destruct (post_lead_validation run_engine run_config lead_without_last_name
              (healthy_world created))
    as (resp & w' & Hrun & _ & Hiff & Hsame).
  assert (H400 : status resp = 400) by (apply Hiff; right; reflexivity).
  exists resp. rewrite (Hsame H400) in Hrun. split; [exact Hrun | exact H400].
Defined.

(** A lead posted before any authorization. *)
Lemma lead_before_authorization_run :
  post_lead run_engine run_config john_doe (unauthorized_world created)
  = (inr (res_json 500
            (VObj [("error", VStr "Failed to create lead");
                   ("details",
                    VObj [("message",
                           VStr "No tokens found. Visit /auth to authorize the app first.")])])),
     unauthorized_world created).
Proof.
  exact (proj2 (post_lead_without_token run_engine run_config john_doe
                  (unauthorized_world created) eq_refl eq_refl) eq_refl).
Defined.

(** A lead the downstream API refuses: one request, 500 with its error. *)
Lemma refused_lead_run :
  exists resp w',
    post_lead run_engine run_config john_doe (healthy_world refused)
    = (inr resp, w')
    /\ sent w' = [lead_request john_doe (VStr "at-1")]
    /\ disk w' = Stored (token_record 500000)
    /\ resp = lead_failure (AxiosError refused).
Proof.
  destruct (post_lead_submits_once run_engine run_config john_doe
              (healthy_world refused) (VStr "at-1")
              (ticked (healthy_world refused)) eq_refl eq_refl eq_refl)
    as (resp & w' & Hrun & Hsent & Hdisk & _ & Hrefused).
  exists resp, w'. split; [exact Hrun|]. split; [exact Hsent|].
  split; [exact Hdisk | exact (Hrefused eq_refl)].
Defined.




(** A state with a space, an ampersand and a hash: none reaches the
    location as such. *)
Lemma auth_location_run :
  exists location,
    get_auth run_config (VObj [("state", VStr "x y&z#")])
    = Redirect 302 location
    /\ count_char "&" location = 3%nat
    /\ count_char "#" location = 0%nat
    /\ count_char " " location = 0%nat.
Proof.
  destruct (get_auth_location_is_well_formed run_config
              (VObj [("state", VStr "x y&z#")]))
    as (location & Hrun & Hamp & _ & _ & Hnone).
  exists location. repeat split; auto; apply Hnone; reflexivity.
Defined.

(** No state and the empty state are redirected to the same location. *)
Lemma auth_state_run :
  get_auth run_config (VObj []) = get_auth run_config (VObj [("state", VStr "")])
  /\ to_string (js_or (get "state" (VObj [])) (VStr ""))
     = to_string (js_or (get "state" (VObj [("state", VStr "")])) (VStr "")).
Proof.
  split; [reflexivity|].
  exact (get_auth_keeps_the_state run_config (VObj [])
           (VObj [("state", VStr "")]) eq_refl).
Defined.

(** Three firings before any authorization: nothing happens. *)
Lemma idle_timer_run :
  interval_firings run_engine run_config 3 (unauthorized_world refused)
  = (inr tt, unauthorized_world refused).
Proof.
  exact (proj2 (interval_firings_footprint run_engine run_config 3
                  (unauthorized_world refused)) eq_refl).
Defined.
